(** * Path-dependent Monte-Carlo engine of the PQF course notebooks

    A shallow embedding of the classes of the "Solutions 3" notebook:
    [Process], [BlackScholesProcess], [OptionState], [BarrierState] with its
    four knock-in / knock-out variants, and the driver [mc_path_dependent];
    plus [AsianState] and [MaxState] of the lecture notebook.

    Modelling conventions.
    - Python numbers (ints and floats alike) are exact rationals [Q].  The
      comparisons [<], [<=], [==] of Python are the boolean tests [py_lt],
      [py_le], [py_eq]; rounding and nan are not modelled.
    - [None] is [None]: an attribute that holds a number or [None] has type
      [option Q].
    - A Python exception is the [Raise] case of [result]; a method that
      mutates [self] returns the new object next to its result, so that the
      state an exception leaves behind is visible.
    - An abstract hook overridden in subclasses ([evolve],
      [calculate_state_variable], [is_payoff_active]) is a field of a [class]
      record; attributes fixed by the constructor of a subclass ([rate],
      [vol], [barrier]) are arguments of the definition that builds the
      record.
    - [np.exp] and [np.sqrt] belong to numpy; they are parameters. *)

From Stdlib Require Import QArith ZArith List Bool Lia Lqa.
Import ListNotations.
Open Scope Q_scope.

(** ** Exceptions and results *)

Inductive exn : Set :=
| RuntimeError
| NotImplementedError
| ValueError
| IndexError
| TypeError
| StatisticsError
| ZeroDivisionError.

Inductive result (A : Type) : Type :=
| Ok (a : A)
| Raise (e : exn).

Arguments Ok {A} a.
Arguments Raise {A} e.

(** ** The Python builtins the notebooks call *)

Module Py.

(** [x == y], [x <= y] and [x < y] on numbers. *)
Definition py_eq (x y : Q) : bool := Qeq_bool x y.
Definition py_le (x y : Q) : bool := Qle_bool x y.
Definition py_lt (x y : Q) : bool :=
  (Qnum x * QDen y <? Qnum y * QDen x)%Z.

(** [x in l]: some element of [l] compares equal to [x]. *)
Definition py_in (x : Q) (l : list Q) : bool :=
  existsb (fun y => py_eq y x) l.

(** [max(l)]: the first item is the candidate, a later item replaces it
    when it is strictly greater; [ValueError] on the empty list. *)
Definition max_from (best : Q) (l : list Q) : Q :=
  fold_left (fun b x => if py_lt b x then x else b) l best.

Definition py_max (l : list Q) : result Q :=
  match l with
  | [] => Raise ValueError
  | x :: xs => Ok (max_from x xs)
  end.

(** [min(l)], symmetrically. *)
Definition min_from (best : Q) (l : list Q) : Q :=
  fold_left (fun b x => if py_lt x b then x else b) l best.

Definition py_min (l : list Q) : result Q :=
  match l with
  | [] => Raise ValueError
  | x :: xs => Ok (min_from x xs)
  end.

(** [l[-1]]: the last item; [IndexError] on the empty list. *)
Fixpoint py_last (l : list Q) : result Q :=
  match l with
  | [] => Raise IndexError
  | [x] => Ok x
  | _ :: xs => py_last xs
  end.

(** [sum(l)] accumulates from the left, starting at [0]. *)
Definition py_sum (l : list Q) : Q := fold_left Qplus l 0.

(** [statistics.mean(l)]; [StatisticsError] on the empty list. *)
Definition mean (l : list Q) : result Q :=
  match l with
  | [] => Raise StatisticsError
  | _ => Ok (py_sum l / inject_Z (Z.of_nat (length l)))
  end.

(** [np.maximum(x, y)] on two scalars. *)
Definition np_maximum (x y : Q) : Q := if py_lt x y then y else x.

End Py.
Import Py.

(** ** Process *)

Module Process.

Module StateData.
(** Mutable state of the process: [StateData(spot, time)]. *)
Record t : Set := make { spot : Q; time : Q }.
End StateData.

(** The attributes [self.spot] and [self.state]. *)
Record t : Set := make { spot : Q; state : StateData.t }.

(** The hook a subclass implements. *)
Record class : Type := Methods { evolve : Q -> Q -> Q -> result Q }.

(** [Process.__init__(state)]. *)
Definition init (st : StateData.t) : t :=
  make (StateData.spot st) st.

(** [Process.evolve] of the base class. *)
Definition base : class :=
  Methods (fun _ _ _ => Raise NotImplementedError).

(** [reset]: [self.state = self.StateData(self.spot, 0)]. *)
Definition reset (self : t) : t :=
  make (spot self) (StateData.make (spot self) 0).

(** [update(time, norms)].  When [evolve] raises, the assignment to
    [self.state] is not reached. *)
Definition update (C : class) (self : t) (time norms : Q) : t * result Q :=
  let dt := time - StateData.time (state self) in
  match evolve C (StateData.spot (state self)) dt norms with
  | Ok st => (make (spot self) (StateData.make st time), Ok st)
  | Raise e => (self, Raise e)
  end.

End Process.

(** ** BlackScholesProcess, Call, FixedRateYieldCurve *)

Section Numpy.

Variables np_exp np_sqrt : Q -> Q.

(** [BlackScholesProcess.evolve]:
    [spot * np.exp((rate - 0.5 * vol**2) * dt + vol*np.sqrt(dt)*norms)]. *)
Definition BlackScholesProcess_evolve (rate vol : Q) (spot dt norms : Q) : Q :=
  spot * np_exp ((rate - (1#2) * vol ^ 2) * dt + vol * np_sqrt dt * norms).

Definition BlackScholesProcess_class (rate vol : Q) : Process.class :=
  Process.Methods (fun spot dt norms =>
                     Ok (BlackScholesProcess_evolve rate vol spot dt norms)).

(** [BlackScholesProcess.__init__(spot, rate, vol)]. *)
Definition BlackScholesProcess (spot : Q) : Process.t :=
  Process.init (Process.StateData.make spot 0).

(** The first draft of [BlackScholesProcess] in the lecture notebook, which
    the notebook calls buggy: [update] restarts from the initial spot with
    the absolute time, and never writes [updated_time]. *)
Record BlackScholesProcess_draft : Set := Draft {
  draft_spot : Q;
  draft_rate : Q;
  draft_vol : Q;
  updated_spot : Q;
  updated_time : Q
}.

Definition draft_init (spot rate vol : Q) : BlackScholesProcess_draft :=
  Draft spot rate vol spot 0.

Definition draft_reset (self : BlackScholesProcess_draft)
    : BlackScholesProcess_draft :=
  Draft (draft_spot self) (draft_rate self) (draft_vol self)
        (draft_spot self) (updated_time self).

Definition draft_update (self : BlackScholesProcess_draft) (time norms : Q)
    : BlackScholesProcess_draft * Q :=
  let updated :=
    draft_spot self
    * np_exp ((draft_rate self - (1#2) * draft_vol self ^ 2) * time
              + draft_vol self * np_sqrt time * norms) in
  (Draft (draft_spot self) (draft_rate self) (draft_vol self)
         updated (updated_time self),
   updated).

(** [FixedRateYieldCurve(rate).discount(maturity)]. *)
Definition FixedRateYieldCurve_discount (rate maturity : Q) : Q :=
  np_exp (- rate * maturity).

End Numpy.

(** [Call(strike)(spot)]: [np.maximum(spot - strike, 0.)].  The state
    variable handed to a payoff is a number or [None]; subtracting from
    [None] is a [TypeError]. *)
Definition Call (strike : Q) (spot : option Q) : result Q :=
  match spot with
  | Some s => Ok (np_maximum (s - strike) 0)
  | None => Raise TypeError
  end.

(** ** OptionState *)

Module OptionState.

Module StateData.
(** [StateData(updates, underlying, state)]: the observed times, the
    observed values of the underlying, and the state variable or [None]. *)
Record t : Set := make {
  updates : list Q;
  underlying : list Q;
  state : option Q
}.
End StateData.

(** The attributes [spot], [expiry], [payoff], [times], [state_data]. *)
Record t : Type := make {
  spot : Q;
  expiry : Q;
  payoff : option Q -> result Q;
  times : list Q;
  state_data : StateData.t
}.

(** The hooks a subclass may override. *)
Record class : Type := Methods {
  calculate_state_variable : t -> result Q;
  is_payoff_active : t -> result bool
}.

Definition set_state_data (self : t) (sd : StateData.t) : t :=
  make (spot self) (expiry self) (payoff self) (times self) sd.

(** [__init__(spot, expiry, payoff, times, state_data=None)]: a
    [StateData] object is always truthy, so a supplied one is kept. *)
Definition init (spot expiry : Q) (payoff : option Q -> result Q)
    (times : list Q) (state_data : option StateData.t) : t :=
  make spot expiry payoff times
       (match state_data with
        | Some sd => sd
        | None => StateData.make [] [] None
        end).

(** [reset]: [self.state_data = self.StateData([], [], None)]. *)
Definition reset (self : t) : t :=
  set_state_data self (StateData.make [] [] None).

(** [has_expired]: [expiry <= max(updates)] when [updates] is not empty
    ([max_from u us] is [max] of the list [u :: us]), [False] otherwise. *)
Definition has_expired (self : t) : bool :=
  match StateData.updates (state_data self) with
  | [] => false
  | u :: us => py_le (expiry self) (max_from u us)
  end.

(** [update_state]: the state variable once expired, [None] before. *)
Definition update_state (C : class) (self : t) : result (option Q) :=
  if has_expired self then
    match calculate_state_variable C self with
    | Ok v => Ok (Some v)
    | Raise e => Raise e
    end
  else Ok None.

(** [update(time, underlying)].  The two lists are appended to in place
    before [update_state] runs: when it raises, the appended items stay and
    [state] keeps its old value. *)
Definition update (C : class) (self : t) (time underlying : Q)
    : t * result unit :=
  let sd := state_data self in
  if py_in time (times self) && negb (py_in time (StateData.updates sd)) then
    let updates' := StateData.updates sd ++ [time] in
    let underlying' := StateData.underlying sd ++ [underlying] in
    let self' :=
      set_state_data self
        (StateData.make updates' underlying' (StateData.state sd)) in
    match update_state C self' with
    | Ok s =>
        (set_state_data self (StateData.make updates' underlying' s), Ok tt)
    | Raise e => (self', Raise e)
    end
  else (self, Ok tt).

(** [calculate_payoff]. *)
Definition calculate_payoff (C : class) (self : t) : result Q :=
  if has_expired self then
    match is_payoff_active C self with
    | Ok true => payoff self (StateData.state (state_data self))
    | Ok false => Ok 0
    | Raise e => Raise e
    end
  else Raise RuntimeError.

(** The base class: [calculate_state_variable] is abstract,
    [is_payoff_active] returns [True]. *)
Definition base : class :=
  Methods (fun _ => Raise NotImplementedError) (fun _ => Ok true).

End OptionState.

(** ** Subclasses of OptionState *)

(** Shorthands for the three fields of [self.state_data]. *)
Definition recorded (self : OptionState.t) : list Q :=
  OptionState.StateData.updates (OptionState.state_data self).

Definition observed (self : OptionState.t) : list Q :=
  OptionState.StateData.underlying (OptionState.state_data self).

Definition state_variable (self : OptionState.t) : option Q :=
  OptionState.StateData.state (OptionState.state_data self).

(** [AsianState] and [MaxState] come from the lecture notebook, whose
    [calculate_payoff] has no activation test: the default
    [is_payoff_active], which returns [True].

    [AsianState]: [statistics.mean(self.state_data.underlying)]. *)
Definition AsianState : OptionState.class :=
  OptionState.Methods (fun self => mean (observed self)) (fun _ => Ok true).

(** [MaxState]: [max(self.state_data.underlying)]. *)
Definition MaxState : OptionState.class :=
  OptionState.Methods (fun self => py_max (observed self)) (fun _ => Ok true).

(** [BarrierState]: the state variable is [underlying[-1]];
    [is_payoff_active] is abstract. *)
Definition BarrierState_calculate_state_variable (self : OptionState.t)
    : result Q :=
  py_last (observed self).

Definition BarrierState (barrier : Q) : OptionState.class :=
  OptionState.Methods BarrierState_calculate_state_variable
                    (fun _ => Raise NotImplementedError).

(** A comparison of a [max] or [min] that may have raised. *)
Definition on_result (r : result Q) (test : Q -> bool) : result bool :=
  match r with
  | Ok m => Ok (test m)
  | Raise e => Raise e
  end.

(** [UpAndOut.is_payoff_active]: [max(underlying) < barrier]. *)
Definition UpAndOut (barrier : Q) : OptionState.class :=
  OptionState.Methods BarrierState_calculate_state_variable
    (fun self => on_result (py_max (observed self)) (fun m => py_lt m barrier)).

(** [DownAndOut.is_payoff_active]: [min(underlying) > barrier]. *)
Definition DownAndOut (barrier : Q) : OptionState.class :=
  OptionState.Methods BarrierState_calculate_state_variable
    (fun self => on_result (py_min (observed self)) (fun m => py_lt barrier m)).

(** [UpAndIn.is_payoff_active]: [max(underlying) > barrier]. *)
Definition UpAndIn (barrier : Q) : OptionState.class :=
  OptionState.Methods BarrierState_calculate_state_variable
    (fun self => on_result (py_max (observed self)) (fun m => py_lt barrier m)).

(** [DownAndIn.is_payoff_active]: [min(underlying) < barrier]. *)
Definition DownAndIn (barrier : Q) : OptionState.class :=
  OptionState.Methods BarrierState_calculate_state_variable
    (fun self => on_result (py_min (observed self)) (fun m => py_lt m barrier)).

(** ** The driver mc_path_dependent *)

Module Pricer.

Section Driver.

(** The state of [np.random] and one call of [np.random.normal()]. *)
Context {RNG : Type}.
Variable normal : RNG -> Q * RNG.

(** The classes of the [process] and [option_state] arguments, and
    [yield_curve.discount]. *)
Variable PC : Process.class.
Variable OC : OptionState.class.
Variable discount : Q -> Q.

(** What the driver mutates: its two arguments and the generator. *)
Record world : Type := World {
  process : Process.t;
  option_state : OptionState.t;
  random : RNG
}.

(** State and exceptions: a computation returns a value or raises, and
    leaves a world behind either way. *)
Definition M (A : Type) : Type := world -> result A * world.

Definition ret {A : Type} (a : A) : M A := fun w => (Ok a, w).

Definition raise {A : Type} (e : exn) : M A := fun w => (Raise e, w).

Definition bind {A B : Type} (m : M A) (k : A -> M B) : M B :=
  fun w =>
    match m w with
    | (Ok a, w') => k a w'
    | (Raise e, w') => (Raise e, w')
    end.

Notation "x <- m ;; k" := (bind m (fun x => k))
  (at level 61, m at next level, right associativity).
Notation "m ;;; k" := (bind m (fun _ => k))
  (at level 61, right associativity).

(** [np.random.normal()]. *)
Definition draw : M Q :=
  fun w =>
    let (z, r) := normal (random w) in
    (Ok z, World (process w) (option_state w) r).

(** [process.update(t, std_norm)]. *)
Definition process_update (t std_norm : Q) : M Q :=
  fun w =>
    let (p, res) := Process.update PC (process w) t std_norm in
    (res, World p (option_state w) (random w)).

(** [option_state.update(t, St)]. *)
Definition option_state_update (t St : Q) : M unit :=
  fun w =>
    let (o, res) := OptionState.update OC (option_state w) t St in
    (res, World (process w) o (random w)).

(** [process.reset()] and [option_state.reset()]. *)
Definition process_reset : M unit :=
  fun w =>
    (Ok tt, World (Process.reset (process w)) (option_state w) (random w)).

Definition option_state_reset : M unit :=
  fun w =>
    (Ok tt, World (process w) (OptionState.reset (option_state w)) (random w)).

(** [option_state.calculate_payoff()]. *)
Definition calculate_payoff : M Q :=
  fun w => (OptionState.calculate_payoff OC (option_state w), w).

(** The loop [for t in times] of [do_one_path]. *)
Fixpoint for_times (times : list Q) : M unit :=
  match times with
  | [] => ret tt
  | t :: rest =>
      std_norm <- draw ;;
      St <- process_update t std_norm ;;
      option_state_update t St ;;;
      for_times rest
  end.

Definition do_one_path (times : list Q) : M Q :=
  for_times times ;;;
  calculate_payoff.

(** The loop [for i in range(n_paths)], with [running_sum] threaded. *)
Fixpoint for_paths (n : nat) (times : list Q) (running_sum : Q) : M Q :=
  match n with
  | O => ret running_sum
  | S n' =>
      process_reset ;;;
      option_state_reset ;;;
      path_value <- do_one_path times ;;
      for_paths n' times (running_sum + path_value)
  end.

(** [mc_path_dependent(option_state, process, yield_curve, n_paths)].
    [range] of a negative count is empty; the division is evaluated before
    [discount] is called, and raises when [n_paths] is [0]. *)
Definition mc_path_dependent (n_paths : Z) : M Q :=
  fun w =>
    let times := OptionState.times (option_state w) in
    (running_sum <- for_paths (Z.to_nat n_paths) times 0 ;;
     if (n_paths =? 0)%Z then raise ZeroDivisionError
     else
       fun w' =>
         (Ok (running_sum / inject_Z n_paths
              * discount (OptionState.expiry (option_state w'))), w')) w.

(** *** The pricer as the specification words it

    Every path starts from the reset process and the reset option state,
    whatever the previous path left behind; only the generator is carried
    from one path to the next. *)

Definition path_state : Type := (Process.t * OptionState.t * RNG)%type.

(** The fixings of one path: for each time in order, one draw, one
    [process.update], one [option_state.update]. *)
Fixpoint spec_fixings (times : list Q) (p : Process.t) (o : OptionState.t)
    (r : RNG) : result path_state :=
  match times with
  | [] => Ok (p, o, r)
  | t :: rest =>
      let (z, r1) := normal r in
      match Process.update PC p t z with
      | (p1, Ok v) =>
          match OptionState.update OC o t v with
          | (o1, Ok _) => spec_fixings rest p1 o1 r1
          | (_, Raise e) => Raise e
          end
      | (_, Raise e) => Raise e
      end
  end.

(** The payoff of the path simulated from generator state [r], and the
    state the path ends in. *)
Definition spec_path (p0 : Process.t) (o0 : OptionState.t) (r : RNG)
    : result (Q * path_state) :=
  match spec_fixings (OptionState.times o0)
                     (Process.reset p0) (OptionState.reset o0) r with
  | Ok (p, o, r') =>
      match OptionState.calculate_payoff OC o with
      | Ok v => Ok (v, (p, o, r'))
      | Raise e => Raise e
      end
  | Raise e => Raise e
  end.

(** The payoffs of [n] successive paths. *)
Fixpoint spec_payoffs (n : nat) (p0 : Process.t) (o0 : OptionState.t)
    (r : RNG) : result (list Q) :=
  match n with
  | O => Ok []
  | S n' =>
      match spec_path p0 o0 r with
      | Ok (v, (_, _, r')) =>
          match spec_payoffs n' p0 o0 r' with
          | Ok vs => Ok (v :: vs)
          | Raise e => Raise e
          end
      | Raise e => Raise e
      end
  end.

(** [(sum of the payoffs / numberOfPaths) * discount(expiry)]. *)
Definition spec_price (n_paths : Z) (w : world) : result Q :=
  match spec_payoffs (Z.to_nat n_paths) (process w) (option_state w)
                     (random w) with
  | Ok vs =>
      Ok (py_sum vs / inject_Z n_paths
          * discount (OptionState.expiry (option_state w)))
  | Raise e => Raise e
  end.

(** The generator after [k] draws. *)
Definition skip (k : nat) (r : RNG) : RNG :=
  Nat.iter k (fun r' => snd (normal r')) r.

End Driver.

End Pricer.

(** ** Concrete objects for running the model

    The cells at the end of the notebook: [T = 5.], [S_0 = 100.],
    [vol = 0.2], [r = 0.02], [K = 100], [times = [1, 2, 3, 4, 5]], and the
    barriers [120] and [80]. *)

Module Examples.

(** Rational stand-ins for [np.exp] and [np.sqrt], so that an example can
    be evaluated: a truncated series and two Newton steps.  No statement
    below depends on how close they are. *)
Definition exp_approx (x : Q) : Q := Qred (1 + x + x * x / 2).

Definition sqrt_approx (x : Q) : Q :=
  let y0 := (1 + x) / 2 in
  let y1 := (y0 + x / y0) / 2 in
  Qred ((y1 + x / y1) / 2).

Definition rate : Q := 2 # 100.
Definition vol : Q := 2 # 10.
Definition S_0 : Q := 100.
Definition T : Q := 5.
Definition times : list Q := [1; 2; 3; 4; 5].

Definition bs_class : Process.class :=
  BlackScholesProcess_class exp_approx sqrt_approx rate vol.

Definition rand_process : Process.t := BlackScholesProcess S_0.

Definition yield_curve_discount : Q -> Q :=
  FixedRateYieldCurve_discount exp_approx rate.

(** The attributes and the fresh record that
    [UpAndOut(120, S_0, T, call_payoff, times)] and its siblings start
    with. *)
Definition call_state : OptionState.t :=
  OptionState.init S_0 T (Call 100) times None.

(** A deterministic generator: the draws [-1, 0, 1, -1, 0, 1, ...]. *)
Definition cycle (k : nat) : Q * nat :=
  (inject_Z (Z.of_nat (k mod 3)) - 1, S k).

(** The record after the fixings [vs] were fed at the times [ts]. *)
Fixpoint feed (C : OptionState.class) (o : OptionState.t) (ts vs : list Q)
    : OptionState.t :=
  match ts, vs with
  | t :: ts', v :: vs' => feed C (fst (OptionState.update C o t v)) ts' vs'
  | _, _ => o
  end.

(** A path that reaches [125] at the second fixing and ends at [110]. *)
Definition knocked : OptionState.t :=
  feed (UpAndOut 120) call_state times [101; 125; 103; 104; 110].

(** A path whose maximum is the barrier [120] itself. *)
Definition touching : OptionState.t :=
  feed (UpAndOut 120) call_state times [101; 120; 103; 104; 110].

(** Only the last fixing, fed to a fresh state. *)
Definition early : OptionState.t :=
  feed (UpAndOut 120) call_state [5] [110].

(** An option that expires at [3] while fixings are required up to [5],
    after the fixings of the times [1], [2] and [3], in order. *)
Definition short : OptionState.t :=
  feed (UpAndOut 120) (OptionState.init S_0 3 (Call 100) times None)
       [1; 2; 3] [101; 102; 103].

(** An option that expires at [6], after the fixings of all its required
    times [1] to [5], in order. *)
Definition late : OptionState.t :=
  feed (UpAndOut 120) (OptionState.init S_0 6 (Call 100) times None)
       times [101; 102; 103; 104; 110].

(** A path that stays below the barrier. *)
Definition alive : OptionState.t :=
  feed (UpAndOut 120) call_state times [101; 102; 103; 104; 110].

(** The payoff [lambda x: 2 * x] and the objects of [test_option_state]
    in the lecture notebook. *)
Definition twice (x : option Q) : result Q :=
  match x with
  | Some v => Ok (2 * v)
  | None => Raise TypeError
  end.

Definition asian_state : OptionState.t :=
  OptionState.init 100 5 twice times None.

Definition fixings : list Q := [101; 102; 103; 104; 105].

Definition world0 : @Pricer.world nat :=
  Pricer.World rand_process call_state 0%nat.

End Examples.

(** ** Reachable option states

    The states an [OptionState] of class [C] goes through from its
    construction with the default record, under [reset] and [update] calls
    (an [update] that raised included). *)
Inductive reachable (C : OptionState.class) (spot expiry : Q)
    (payoff : option Q -> result Q) (times : list Q)
    : OptionState.t -> Prop :=
| reach_init :
    reachable C spot expiry payoff times
              (OptionState.init spot expiry payoff times None)
| reach_reset o :
    reachable C spot expiry payoff times o ->
    reachable C spot expiry payoff times (OptionState.reset o)
| reach_update o t v :
    reachable C spot expiry payoff times o ->
    reachable C spot expiry payoff times (fst (OptionState.update C o t v)).

(** [m] is a greatest, resp. least, item of [l]. *)
Definition is_max (m : Q) (l : list Q) : Prop :=
  In m l /\ forall x, In x l -> x <= m.

Definition is_min (m : Q) (l : list Q) : Prop :=
  In m l /\ forall x, In x l -> m <= x.

(** The hook [calculate_state_variable] returns a value whenever at least
    one fixing has been recorded. *)
Definition state_variable_defined (C : OptionState.class) : Prop :=
  forall o, observed o <> [] ->
            exists v, OptionState.calculate_state_variable C o = Ok v.

(** ** Further notions used by the properties

    A process driven through a list of [(time, draw)] updates, whatever
    each of them returns or raises. *)
Fixpoint process_run (C : Process.class) (p : Process.t)
    (steps : list (Q * Q)) : Process.t :=
  match steps with
  | [] => p
  | (t, z) :: rest => process_run C (fst (Process.update C p t z)) rest
  end.

(** The draft driven through a list of [(time, draw)] updates. *)
Fixpoint draft_run (np_exp np_sqrt : Q -> Q) (p : BlackScholesProcess_draft)
    (steps : list (Q * Q)) : BlackScholesProcess_draft :=
  match steps with
  | [] => p
  | (t, z) :: rest =>
      draft_run np_exp np_sqrt (fst (draft_update np_exp np_sqrt p t z)) rest
  end.

(** No two items of [l] compare equal. *)
Fixpoint distinct (l : list Q) : bool :=
  match l with
  | [] => true
  | x :: xs => negb (py_in x xs) && distinct xs
  end.

(** The hook [calculate_state_variable] reads nothing of [self] but the
    observed values, as those of [BarrierState], [AsianState] and [MaxState]
    do. *)
Definition reads_observed_only (C : OptionState.class) : Prop :=
  forall o o', observed o = observed o' ->
               OptionState.calculate_state_variable C o
               = OptionState.calculate_state_variable C o'.

(** * Properties *)

(** ** Comparisons, [max] and [min] *)

Lemma py_lt_iff (x y : Q) : py_lt x y = true <-> x < y.
Proof. unfold py_lt, Qlt. apply Z.ltb_lt. Qed.

Lemma py_lt_false_iff (x y : Q) : py_lt x y = false <-> y <= x.
Proof. unfold py_lt, Qle. rewrite Z.ltb_ge. reflexivity. Qed.

Lemma py_le_iff (x y : Q) : py_le x y = true <-> x <= y.
Proof. apply Qle_bool_iff. Qed.

Lemma py_eq_iff (x y : Q) : py_eq x y = true <-> x == y.
Proof. apply Qeq_bool_iff. Qed.

Lemma py_in_iff (x : Q) (l : list Q) :
  py_in x l = true <-> exists y, In y l /\ y == x.
Proof.
  unfold py_in. rewrite existsb_exists.
  split; intros [y [Hy E]]; exists y; split; auto; now apply py_eq_iff.
Qed.

Lemma py_in_app_self (x : Q) (l : list Q) : py_in x (l ++ [x]) = true.
Proof.
  apply py_in_iff. exists x. split; [ | reflexivity ].
  apply in_or_app. right. now left.
Qed.

Lemma Qminus_zero (t : Q) : t - 0 = t.
Proof.
  destruct t as [n d]. unfold Qminus, Qplus, Qopp. simpl.
  now rewrite Z.mul_1_r, Z.add_0_r, Pos.mul_1_r.
Qed.

Lemma max_from_ge (l : list Q) : forall best, best <= max_from best l.
Proof.
  unfold max_from. induction l as [ | x l IH ]; intros best; simpl.
  - apply Qle_refl.
  - destruct (py_lt best x) eqn:E.
    + apply py_lt_iff in E. eapply Qle_trans; [ | apply IH ].
      now apply Qlt_le_weak.
    + apply IH.
Qed.

Lemma max_from_upper (l : list Q) :
  forall best x, In x l -> x <= max_from best l.
Proof.
  unfold max_from. induction l as [ | y l IH ]; intros best x Hx; simpl.
  - destruct Hx.
  - destruct Hx as [ -> | Hx ]; [ | now apply IH ].
    destruct (py_lt best x) eqn:E.
    + apply (max_from_ge l x).
    + apply py_lt_false_iff in E.
      eapply Qle_trans; [ exact E | apply (max_from_ge l best) ].
Qed.

Lemma max_from_in (l : list Q) :
  forall best, In (max_from best l) (best :: l).
Proof.
  unfold max_from. induction l as [ | y l IH ]; intros best; simpl.
  - now left.
  - destruct (py_lt best y).
    + right. apply IH.
    + destruct (IH best) as [ E | Hin ]; [ now left | right; now right ].
Qed.

Lemma min_from_le (l : list Q) : forall best, min_from best l <= best.
Proof.
  unfold min_from. induction l as [ | x l IH ]; intros best; simpl.
  - apply Qle_refl.
  - destruct (py_lt x best) eqn:E.
    + apply py_lt_iff in E. eapply Qle_trans; [ apply IH | ].
      now apply Qlt_le_weak.
    + apply IH.
Qed.

Lemma min_from_lower (l : list Q) :
  forall best x, In x l -> min_from best l <= x.
Proof.
  unfold min_from. induction l as [ | y l IH ]; intros best x Hx; simpl.
  - destruct Hx.
  - destruct Hx as [ -> | Hx ]; [ | now apply IH ].
    destruct (py_lt x best) eqn:E.
    + apply (min_from_le l x).
    + apply py_lt_false_iff in E.
      eapply Qle_trans; [ apply (min_from_le l best) | exact E ].
Qed.

Lemma min_from_in (l : list Q) :
  forall best, In (min_from best l) (best :: l).
Proof.
  unfold min_from. induction l as [ | y l IH ]; intros best; simpl.
  - now left.
  - destruct (py_lt y best).
    + right. apply IH.
    + destruct (IH best) as [ E | Hin ]; [ now left | right; now right ].
Qed.

Lemma py_max_is_max (l : list Q) :
  l <> [] -> exists m, py_max l = Ok m /\ is_max m l.
Proof.
  destruct l as [ | x xs ]; [ congruence | intros _ ].
  exists (max_from x xs). split; [ reflexivity | split ].
  - apply max_from_in.
  - intros y [ <- | Hy ]; [ apply max_from_ge | now apply max_from_upper ].
Qed.

Lemma py_min_is_min (l : list Q) :
  l <> [] -> exists m, py_min l = Ok m /\ is_min m l.
Proof.
  destruct l as [ | x xs ]; [ congruence | intros _ ].
  exists (min_from x xs). split; [ reflexivity | split ].
  - apply min_from_in.
  - intros y [ <- | Hy ]; [ apply min_from_le | now apply min_from_lower ].
Qed.

(** ** Process *)

(** C1.  Time-homogeneity of Process: after [reset()], [update(t1, z)]
    returns what [evolve(initialValue, t1, z)] returns; when that is a value
    [v1], a following [update(t2, z2)] returns what
    [evolve(v1, t2 - t1, z2)] returns.  Absolute time enters the transition
    only through the elapsed increment. *)
Theorem process_time_homogeneous (C : Process.class) (p : Process.t)
    (t1 z t2 z2 : Q) :
  0 < t1 -> t1 <= t2 ->
  let step1 := Process.update C (Process.reset p) t1 z in
  snd step1 = Process.evolve C (Process.spot p) t1 z /\
  forall v1, snd step1 = Ok v1 ->
             snd (Process.update C (fst step1) t2 z2)
             = Process.evolve C v1 (t2 - t1) z2.
Proof.
  intros _ _ step1. subst step1.
  unfold Process.update, Process.reset. simpl.
  rewrite Qminus_zero.
  destruct (Process.evolve C (Process.spot p) t1 z) as [ v | e ] eqn:E1.
  - split; [ reflexivity | ]. simpl. intros v1 Hv1. injection Hv1 as <-.
    now destruct (Process.evolve C v (t2 - t1) z2).
  - split; [ reflexivity | ]. simpl. discriminate.
Qed.

Lemma process_time_homogeneous_witness :
  0 < 1 /\ 1 <= 2 /\
  snd (Process.update Examples.bs_class
         (fst (Process.update Examples.bs_class
                 (Process.reset Examples.rand_process) 1 1)) 2 0)
  = Process.evolve Examples.bs_class (6100 # 50) (2 - 1) 0.
Proof.
  assert (H1 : 0 < 1) by reflexivity.
  assert (H2 : 1 <= 2) by discriminate.
  split; [ exact H1 | split; [ exact H2 | ] ].
  apply (proj2 (process_time_homogeneous Examples.bs_class
                  Examples.rand_process 1 1 2 0 H1 H2) (6100 # 50)).
  reflexivity.
Defined.

(** C8 (as the code has it).  [update] makes no test on the sign of the
    step: called with a time before the state's time, it hands the negative
    increment to [evolve]; when [evolve] returns a value, the state becomes
    that value at the given time and the value is returned; it raises only
    when [evolve] does, and then leaves the state alone. *)
Theorem process_update_backwards (C : Process.class) (p : Process.t)
    (time norms : Q) :
  time < Process.StateData.time (Process.state p) ->
  let dt := time - Process.StateData.time (Process.state p) in
  dt < 0 /\
  Process.update C p time norms =
  match Process.evolve C (Process.StateData.spot (Process.state p)) dt norms
  with
  | Ok st => (Process.make (Process.spot p) (Process.StateData.make st time),
              Ok st)
  | Raise e => (p, Raise e)
  end.
Proof.
  intros H dt. split; [ unfold dt; lra | reflexivity ].
Qed.

Lemma process_update_backwards_witness :
  1 < 2 /\
  Process.update Examples.bs_class
    (Process.make 100 (Process.StateData.make 100 2)) 1 0
  = (Process.make 100 (Process.StateData.make 100 1), Ok 100).
Proof.
  assert (H : 1 < 2) by reflexivity.
  split; [ exact H | ].
  rewrite (proj2 (process_update_backwards Examples.bs_class
                    (Process.make 100 (Process.StateData.make 100 2)) 1 0 H)).
  reflexivity.
Defined.

(** C8, refuted as stated: a Black-Scholes process standing at time [2] and
    asked to move to time [1] raises nothing; it returns a value and its
    state is rewound to time [1]. *)
Lemma process_update_backwards_accepted :
  (1 < Process.StateData.time
         (Process.state (Process.make 100 (Process.StateData.make 100 2))))
  /\ exists v,
      Process.update Examples.bs_class
        (Process.make 100 (Process.StateData.make 100 2)) 1 0
      = (Process.make 100 (Process.StateData.make v 1), Ok v).
Proof.
  split; [ reflexivity | exists 100; reflexivity ].
Qed.

(** ** [test_black_scholes] of the lecture notebook

    [update(1, 1.0)] then [update(2, 0.0)] then [reset()].  With the class
    [Process] the second value is the first one again and the state follows
    the time; the draft falls back to the initial spot and its
    [updated_time] never moves, the two defects the notebook points at. *)

Example test_black_scholes :
  let p0 := Examples.rand_process in
  let p1 := fst (Process.update Examples.bs_class p0 1 1) in
  let p2 := fst (Process.update Examples.bs_class p1 2 0) in
  Process.update Examples.bs_class p0 1 1
  = (Process.make 100 (Process.StateData.make (6100 # 50) 1), Ok (6100 # 50))
  /\ Process.update Examples.bs_class p1 2 0
     = (Process.make 100 (Process.StateData.make (6100 # 50) 2),
        Ok (6100 # 50))
  /\ Process.reset p2 = Process.make 100 (Process.StateData.make 100 0).
Proof. repeat split. Qed.

Example test_black_scholes_draft :
  let update := draft_update Examples.exp_approx Examples.sqrt_approx in
  let p0 := draft_init 100 Examples.rate Examples.vol in
  let p1 := fst (update p0 1 1) in
  let p2 := fst (update p1 2 0) in
  snd (update p0 1 1) = 6100 # 50
  /\ snd (update p1 2 0) = 100
  /\ updated_time p2 = 0
  /\ draft_reset p2 = p0.
Proof. repeat split. Qed.

(** ** OptionState *)

Lemma has_expired_reset (o : OptionState.t) :
  OptionState.has_expired (OptionState.reset o) = false.
Proof. reflexivity. Qed.

(** [has_expired()] says that some recorded time is at or after [expiry]. *)
Lemma has_expired_iff (o : OptionState.t) :
  OptionState.has_expired o = true
  <-> exists u, In u (recorded o) /\ OptionState.expiry o <= u.
Proof.
  unfold OptionState.has_expired, recorded.
  destruct (OptionState.StateData.updates (OptionState.state_data o))
    as [ | u0 us ].
  - split; [ discriminate | intros [ u [ [] _ ] ] ].
  - rewrite py_le_iff. split.
    + intros H. exists (max_from u0 us). split; [ apply max_from_in | exact H ].
    + intros [ u [ Hu Hle ] ]. apply Qle_trans with u; [ exact Hle | ].
      destruct Hu as [ <- | Hu ];
        [ apply max_from_ge | now apply max_from_upper ].
Qed.

(** What [update] does to the record when it accepts the time. *)
Lemma update_accepted (C : OptionState.class) (o : OptionState.t) (t v : Q) :
  py_in t (OptionState.times o) = true ->
  py_in t (recorded o) = false ->
  recorded (fst (OptionState.update C o t v)) = recorded o ++ [t]
  /\ observed (fst (OptionState.update C o t v)) = observed o ++ [v].
Proof.
  unfold recorded, observed, OptionState.update.
  intros -> ->. simpl.
  destruct (OptionState.update_state C _); simpl; auto.
Qed.

Lemma update_rejected (C : OptionState.class) (o : OptionState.t) (t v : Q) :
  py_in t (OptionState.times o) = false \/ py_in t (recorded o) = true ->
  OptionState.update C o t v = (o, Ok tt).
Proof.
  unfold recorded, OptionState.update. intros [ H | H ]; rewrite H.
  - reflexivity.
  - now rewrite andb_false_r.
Qed.

(** [update] never touches [spot], [expiry], [payoff] and [times]. *)
Lemma update_reset (C : OptionState.class) (o : OptionState.t) (t v : Q) :
  OptionState.reset (fst (OptionState.update C o t v)) = OptionState.reset o.
Proof.
  unfold OptionState.update.
  destruct (_ && _); [ | reflexivity ].
  now destruct (OptionState.update_state C _).
Qed.

Lemma reset_attributes (o o' : OptionState.t) :
  OptionState.reset o' = OptionState.reset o ->
  OptionState.times o' = OptionState.times o
  /\ OptionState.expiry o' = OptionState.expiry o.
Proof.
  intros E. split.
  - exact (f_equal OptionState.times E).
  - exact (f_equal OptionState.expiry E).
Qed.

(** C3.  calculatePayoff contract: it fails with a state error
    ([RuntimeError]) whenever [has_expired()] is false, in particular on a
    freshly constructed and on a freshly reset state; once expired it
    returns [payoff(state)] when [is_payoff_active()] is true and [0] when it
    is false; an expired [UpAndOut] one of whose observed values exceeds the
    barrier pays [0], whatever the last value. *)
Theorem calculate_payoff_contract (C : OptionState.class) (o : OptionState.t) :
  (OptionState.has_expired o = false ->
   OptionState.calculate_payoff C o = Raise RuntimeError)
  /\ (forall spot expiry payoff times,
       OptionState.calculate_payoff C
         (OptionState.init spot expiry payoff times None)
       = Raise RuntimeError)
  /\ OptionState.calculate_payoff C (OptionState.reset o) = Raise RuntimeError
  /\ (OptionState.has_expired o = true ->
      OptionState.is_payoff_active C o = Ok true ->
      OptionState.calculate_payoff C o
      = OptionState.payoff o (state_variable o))
  /\ (OptionState.has_expired o = true ->
      OptionState.is_payoff_active C o = Ok false ->
      OptionState.calculate_payoff C o = Ok 0)
  /\ (forall barrier x,
       OptionState.has_expired o = true ->
       In x (observed o) -> barrier < x ->
       OptionState.calculate_payoff (UpAndOut barrier) o = Ok 0).
Proof.
  unfold OptionState.calculate_payoff.
  split; [ | split; [ | split; [ | split; [ | split ] ] ] ].
  - now intros ->.
  - reflexivity.
  - reflexivity.
  - now intros -> ->.
  - now intros -> ->.
  - intros barrier x -> Hx Hlt. simpl.
    destruct (py_max_is_max (observed o)) as [ m [ Em [ _ Hm ] ] ].
    { intros E. rewrite E in Hx. destruct Hx. }
    rewrite Em. simpl.
    assert (E : py_lt m barrier = false).
    { apply py_lt_false_iff. apply Qlt_le_weak.
      eapply Qlt_le_trans; [ exact Hlt | now apply Hm ]. }
    now rewrite E.
Qed.

Lemma calculate_payoff_contract_witness :
  OptionState.calculate_payoff (UpAndOut 120) Examples.call_state
  = Raise RuntimeError
  /\ OptionState.calculate_payoff (UpAndOut 120) Examples.alive = Ok 10
  /\ OptionState.calculate_payoff (UpAndOut 120) Examples.touching = Ok 0
  /\ OptionState.calculate_payoff (UpAndOut 120) Examples.knocked = Ok 0.
Proof.
  pose proof (calculate_payoff_contract (UpAndOut 120) Examples.call_state)
    as [ fresh _ ].
  pose proof (calculate_payoff_contract (UpAndOut 120) Examples.alive)
    as [ _ [ _ [ _ [ active _ ] ] ] ].
  pose proof (calculate_payoff_contract (UpAndOut 120) Examples.touching)
    as [ _ [ _ [ _ [ _ [ inactive _ ] ] ] ] ].
  pose proof (calculate_payoff_contract (UpAndOut 120) Examples.knocked)
    as [ _ [ _ [ _ [ _ [ _ scenario ] ] ] ] ].
  split; [ apply fresh; reflexivity | ].
  split; [ rewrite active; reflexivity | ].
  split; [ apply inactive; reflexivity | ].
  apply (scenario 120 125).
  - reflexivity.
  - right. now left.
  - reflexivity.
Defined.

(** C4 (as the code has it).  Barrier boundary: an [UpAndOut] state whose
    maximum observed value equals the barrier exactly is not active: the
    test [max(underlying) < barrier] is strict, so touching the barrier
    knocks the path out, and once expired it pays [0]. *)
Theorem up_and_out_touching_is_knocked_out (barrier : Q) (o : OptionState.t)
    (m : Q) :
  py_max (observed o) = Ok m -> m == barrier ->
  OptionState.is_payoff_active (UpAndOut barrier) o = Ok false
  /\ (OptionState.has_expired o = true ->
      OptionState.calculate_payoff (UpAndOut barrier) o = Ok 0).
Proof.
  intros Em Hm.
  assert (A : OptionState.is_payoff_active (UpAndOut barrier) o = Ok false).
  { simpl. rewrite Em. simpl. f_equal.
    apply py_lt_false_iff. rewrite Hm. apply Qle_refl. }
  split; [ exact A | ].
  intros He. unfold OptionState.calculate_payoff. now rewrite He, A.
Qed.

Lemma up_and_out_touching_is_knocked_out_witness :
  py_max (observed Examples.touching) = Ok 120 /\ 120 == 120
  /\ OptionState.is_payoff_active (UpAndOut 120) Examples.touching = Ok false
  /\ OptionState.calculate_payoff (UpAndOut 120) Examples.touching = Ok 0.
Proof.
  assert (Em : py_max (observed Examples.touching) = Ok 120) by reflexivity.
  assert (Hm : 120 == 120) by reflexivity.
  destruct (up_and_out_touching_is_knocked_out 120 Examples.touching 120 Em Hm)
    as [ A P ].
  split; [ exact Em | ]. split; [ exact Hm | ].
  split; [ exact A | apply P; reflexivity ].
Defined.

(** C4, refuted as stated: the record of [touching] is complete (all five
    required times, expired), the maximum of its observed values is the
    barrier [120] itself, and [is_payoff_active()] returns [False]. *)
Lemma up_and_out_touching_not_active :
  recorded Examples.touching = OptionState.times Examples.touching
  /\ OptionState.has_expired Examples.touching = true
  /\ py_max (observed Examples.touching) = Ok 120
  /\ OptionState.is_payoff_active (UpAndOut 120) Examples.touching
     = Ok false.
Proof.
  split; [ reflexivity | ]. split; [ reflexivity | ].
  split; reflexivity.
Qed.

(** C5.  Barrier activation table: with at least one observed value,
    [is_payoff_active()] returns the truth value of
    [max(observed) < barrier] for Up-and-Out, [min(observed) > barrier] for
    Down-and-Out, [max(observed) > barrier] for Up-and-In and
    [min(observed) < barrier] for Down-and-In; every inequality is
    strict. *)
Theorem barrier_activation_table (barrier : Q) (o : OptionState.t) :
  observed o <> [] ->
  (exists m b, is_max m (observed o)
               /\ OptionState.is_payoff_active (UpAndOut barrier) o = Ok b
               /\ (b = true <-> m < barrier))
  /\ (exists m b, is_min m (observed o)
                  /\ OptionState.is_payoff_active (DownAndOut barrier) o = Ok b
                  /\ (b = true <-> barrier < m))
  /\ (exists m b, is_max m (observed o)
                  /\ OptionState.is_payoff_active (UpAndIn barrier) o = Ok b
                  /\ (b = true <-> barrier < m))
  /\ (exists m b, is_min m (observed o)
                  /\ OptionState.is_payoff_active (DownAndIn barrier) o = Ok b
                  /\ (b = true <-> m < barrier)).
Proof.
  intros Hne.
  destruct (py_max_is_max _ Hne) as [ hi [ Ehi Hhi ] ].
  destruct (py_min_is_min _ Hne) as [ lo [ Elo Hlo ] ].
  repeat apply conj.
  - exists hi, (py_lt hi barrier). simpl. rewrite Ehi. simpl.
    split; [ exact Hhi | split; [ reflexivity | apply py_lt_iff ] ].
  - exists lo, (py_lt barrier lo). simpl. rewrite Elo. simpl.
    split; [ exact Hlo | split; [ reflexivity | apply py_lt_iff ] ].
  - exists hi, (py_lt barrier hi). simpl. rewrite Ehi. simpl.
    split; [ exact Hhi | split; [ reflexivity | apply py_lt_iff ] ].
  - exists lo, (py_lt lo barrier). simpl. rewrite Elo. simpl.
    split; [ exact Hlo | split; [ reflexivity | apply py_lt_iff ] ].
Qed.

Lemma barrier_activation_table_witness :
  observed Examples.alive <> []
  /\ OptionState.is_payoff_active (UpAndOut 120) Examples.alive = Ok true
  /\ OptionState.is_payoff_active (DownAndOut 80) Examples.alive = Ok true
  /\ OptionState.is_payoff_active (UpAndIn 120) Examples.alive = Ok false
  /\ OptionState.is_payoff_active (DownAndIn 80) Examples.alive = Ok false.
Proof.
  assert (Hne : observed Examples.alive <> []) by discriminate.
  destruct (barrier_activation_table 120 Examples.alive Hne)
    as [ [ m1 [ b1 [ [ I1 _ ] [ E1 T1 ] ] ] ]
         [ _ [ [ m3 [ b3 [ [ I3 _ ] [ E3 T3 ] ] ] ] _ ] ] ].
  destruct (barrier_activation_table 80 Examples.alive Hne)
    as [ _ [ [ m2 [ b2 [ [ I2 _ ] [ E2 T2 ] ] ] ]
             [ _ [ m4 [ b4 [ [ I4 _ ] [ E4 T4 ] ] ] ] ] ] ].
  split; [ exact Hne | ].
  rewrite E1, E2, E3, E4.
  vm_compute in I1, I2, I3, I4.
  repeat split; f_equal.
  - apply T1. decompose [or] I1; subst; reflexivity || contradiction.
  - apply T2. decompose [or] I2; subst; reflexivity || contradiction.
  - destruct b3; [ exfalso | reflexivity ].
    assert (L : 120 < m3) by now apply T3.
    decompose [or] I3; subst; discriminate || contradiction.
  - destruct b4; [ exfalso | reflexivity ].
    assert (L : m4 < 80) by now apply T4.
    decompose [or] I4; subst; discriminate || contradiction.
Defined.

(** C6.  Update is a no-op on rejected times and idempotent on duplicates:
    [update(t, v)] with [t] not among the required times, or with [t]
    already recorded (whatever the value), leaves the object, hence its
    whole record, unchanged and raises nothing; an accepted call appends [t]
    and [v] to the record; and a second call at the same [t], with any
    value, changes nothing after the first. *)
Theorem update_noop_and_idempotent (C : OptionState.class)
    (o : OptionState.t) (t v : Q) :
  (py_in t (OptionState.times o) = false ->
   OptionState.update C o t v = (o, Ok tt))
  /\ (py_in t (recorded o) = true ->
      OptionState.update C o t v = (o, Ok tt))
  /\ (py_in t (OptionState.times o) = true ->
      py_in t (recorded o) = false ->
      recorded (fst (OptionState.update C o t v)) = recorded o ++ [t]
      /\ observed (fst (OptionState.update C o t v)) = observed o ++ [v])
  /\ (forall v',
       OptionState.update C (fst (OptionState.update C o t v)) t v'
       = (fst (OptionState.update C o t v), Ok tt)).
Proof.
  split; [ | split; [ | split ] ].
  - intros H. apply update_rejected. now left.
  - intros H. apply update_rejected. now right.
  - apply update_accepted.
  - intros v'.
    destruct (py_in t (OptionState.times o)) eqn:Ht.
    + destruct (py_in t (recorded o)) eqn:Hu.
      * rewrite (update_rejected C o t v) by now right.
        apply update_rejected. now right.
      * destruct (update_accepted C o t v Ht Hu) as [ E1 _ ].
        apply update_rejected. right. rewrite E1. apply py_in_app_self.
    + rewrite (update_rejected C o t v) by now left.
      apply update_rejected. now left.
Qed.

Lemma update_noop_and_idempotent_witness :
  OptionState.update (UpAndOut 120) Examples.call_state (3 # 2) 200
  = (Examples.call_state, Ok tt)
  /\ OptionState.update (UpAndOut 120) Examples.alive 2 999
     = (Examples.alive, Ok tt)
  /\ observed (fst (OptionState.update (UpAndOut 120)
                      Examples.call_state 1 101)) = [101].
Proof.
  pose proof (update_noop_and_idempotent (UpAndOut 120)
                Examples.call_state (3 # 2) 200) as [ H1 _ ].
  pose proof (update_noop_and_idempotent (UpAndOut 120)
                Examples.alive 2 999) as [ _ [ H2 _ ] ].
  pose proof (update_noop_and_idempotent (UpAndOut 120)
                Examples.call_state 1 101) as [ _ [ _ [ H3 _ ] ] ].
  split; [ apply H1; reflexivity | ].
  split; [ apply H2; reflexivity | ].
  rewrite (proj2 (H3 eq_refl eq_refl)). reflexivity.
Defined.

(** ** The record of a reachable state *)

Lemma reachable_reset (C : OptionState.class) (spot expiry : Q)
    (payoff : option Q -> result Q) (times : list Q) (o : OptionState.t) :
  reachable C spot expiry payoff times o ->
  OptionState.reset o
  = OptionState.reset (OptionState.init spot expiry payoff times None).
Proof.
  induction 1 as [ | o R IH | o t v R IH ].
  - reflexivity.
  - exact IH.
  - now rewrite update_reset.
Qed.

Lemma update_state_defined (C : OptionState.class) (o : OptionState.t) :
  state_variable_defined C -> observed o <> [] ->
  exists s, OptionState.update_state C o = Ok s
            /\ (s <> None <-> OptionState.has_expired o = true).
Proof.
  intros D Hne. unfold OptionState.update_state.
  destruct (OptionState.has_expired o).
  - destruct (D o Hne) as [ v -> ]. exists (Some v).
    split; [ reflexivity | ]. split; [ reflexivity | discriminate ].
  - exists None. split; [ reflexivity | ]. split; [ congruence | discriminate ].
Qed.

Lemma reachable_state_iff_expired (C : OptionState.class) (spot expiry : Q)
    (payoff : option Q -> result Q) (times : list Q) (o : OptionState.t) :
  state_variable_defined C ->
  reachable C spot expiry payoff times o ->
  state_variable o <> None <-> OptionState.has_expired o = true.
Proof.
  intros D. unfold state_variable.
  induction 1 as [ | o R IH | o t v R IH ].
  - simpl. split; [ congruence | discriminate ].
  - simpl. split; [ congruence | discriminate ].
  - unfold OptionState.update.
    destruct (_ && _); [ | exact IH ].
    match goal with
    | |- context [ OptionState.update_state C ?o' ] =>
        destruct (update_state_defined C o' D) as [ s [ E Hs ] ]
    end.
    { unfold observed. simpl.
      now destruct (OptionState.StateData.underlying _). }
    rewrite E. simpl fst. exact Hs.
Qed.

(** C7 (as the code has it).  Record invariant: in every state reachable
    from construction by [reset] and [update] calls, for a class whose
    [calculate_state_variable] returns a value on a non-empty record, the
    state variable is set (not [None]) if and only if [has_expired()] is
    true, that is, if and only if some recorded time is at or after
    [expiry].  When some required time is at or after [expiry], having
    observed every required time is enough for it to be set. *)
Theorem state_set_iff_expired (C : OptionState.class) (spot expiry : Q)
    (payoff : option Q -> result Q) (times : list Q) (o : OptionState.t) :
  state_variable_defined C ->
  reachable C spot expiry payoff times o ->
  (state_variable o <> None <-> OptionState.has_expired o = true)
  /\ (state_variable o <> None
      <-> exists u, In u (recorded o) /\ expiry <= u)
  /\ ((exists t, In t times /\ expiry <= t) ->
      (forall t, In t times -> py_in t (recorded o) = true) ->
      state_variable o <> None).
Proof.
  intros D R.
  pose proof (reachable_state_iff_expired C spot expiry payoff times o D R)
    as Hiff.
  destruct (reset_attributes _ _
              (reachable_reset C spot expiry payoff times o R)) as [ Et Ee ].
  simpl in Et, Ee.
  assert (Hset : state_variable o <> None
                 <-> exists u, In u (recorded o) /\ expiry <= u).
  { rewrite Hiff, has_expired_iff, Ee. reflexivity. }
  split; [ exact Hiff | split; [ exact Hset | ] ].
  intros [ t [ Ht Hle ] ] Hall. apply Hset.
  destruct (proj1 (py_in_iff _ _) (Hall t Ht)) as [ u [ Hu Eu ] ].
  exists u. split; [ exact Hu | ]. now rewrite Eu.
Qed.

Lemma py_last_defined (l : list Q) : l <> [] -> exists v, py_last l = Ok v.
Proof.
  induction l as [ | x l IH ]; [ congruence | intros _ ].
  destruct l as [ | y l ]; [ now exists x | ].
  apply IH. discriminate.
Qed.

Lemma barrier_state_variable_defined (C : OptionState.class) :
  OptionState.calculate_state_variable C
  = BarrierState_calculate_state_variable ->
  state_variable_defined C.
Proof.
  intros E o Hne. rewrite E. now apply py_last_defined.
Qed.

Lemma reachable_feed (C : OptionState.class) (spot expiry : Q)
    (payoff : option Q -> result Q) (times : list Q) (ts : list Q) :
  forall vs o,
    reachable C spot expiry payoff times o ->
    reachable C spot expiry payoff times (Examples.feed C o ts vs).
Proof.
  induction ts as [ | t ts IH ]; intros vs o R; simpl; [ exact R | ].
  destruct vs as [ | v vs ]; [ exact R | ].
  apply IH. now apply reach_update.
Qed.

Lemma state_set_iff_expired_witness :
  state_variable Examples.alive <> None
  /\ OptionState.has_expired Examples.alive = true.
Proof.
  assert (D : state_variable_defined (UpAndOut 120)).
  { now apply barrier_state_variable_defined. }
  assert (R : reachable (UpAndOut 120) Examples.S_0 Examples.T (Call 100)
                        Examples.times Examples.alive).
  { apply reachable_feed. apply reach_init. }
  destruct (state_set_iff_expired _ _ _ _ _ _ D R) as [ H1 [ _ H3 ] ].
  assert (S : state_variable Examples.alive <> None).
  { apply H3.
    - exists 5. split; [ simpl; tauto | discriminate ].
    - intros t Ht. simpl in Ht. decompose [or] Ht; subst;
        reflexivity || contradiction. }
  split; [ exact S | now apply H1 ].
Defined.

(** C7, refuted as stated, in both directions.  With required times
    [1..5]: the single fixing of time [5], fed to a fresh state of expiry
    [5], sets the state variable although the times [1] to [4] were never
    observed; so do the fixings of [1], [2], [3], fed in order to a state of
    expiry [3], with [4] and [5] unobserved; and a state of expiry [6] that
    has observed every required time has its state variable unset. *)
Lemma state_set_before_all_observed :
  (reachable (UpAndOut 120) Examples.S_0 Examples.T (Call 100) Examples.times
             Examples.early
   /\ state_variable Examples.early = Some 110
   /\ In 1 (OptionState.times Examples.early)
   /\ py_in 1 (recorded Examples.early) = false)
  /\ (reachable (UpAndOut 120) Examples.S_0 3 (Call 100) Examples.times
                Examples.short
      /\ state_variable Examples.short = Some 103
      /\ In 5 (OptionState.times Examples.short)
      /\ py_in 5 (recorded Examples.short) = false)
  /\ (reachable (UpAndOut 120) Examples.S_0 6 (Call 100) Examples.times
                Examples.late
      /\ recorded Examples.late = OptionState.times Examples.late
      /\ state_variable Examples.late = None).
Proof.
  split; [ | split ].
  - split; [ apply reachable_feed; apply reach_init | ].
    split; [ reflexivity | ]. split; [ now left | reflexivity ].
  - split; [ apply reachable_feed; apply reach_init | ].
    split; [ reflexivity | ]. split; [ simpl; tauto | reflexivity ].
  - split; [ apply reachable_feed; apply reach_init | ].
    split; reflexivity.
Qed.

(** ** The scenarios of the lecture notebook

    [test_option_state]: a time that is not required is ignored, the payoff
    cannot be computed before expiry, the state expires with the fifth
    fixing, and the Asian state with payoff [lambda x: 2 * x] pays [206]. *)

Example test_option_state_asian :
  let x := Examples.asian_state in
  let C := AsianState in
  OptionState.has_expired x = false
  /\ OptionState.update C x (3 # 2) 200 = (x, Ok tt)
  /\ OptionState.calculate_payoff C x = Raise RuntimeError
  /\ map (fun k => OptionState.has_expired
                     (Examples.feed C x (firstn k Examples.times)
                                    Examples.fixings))
         (seq 1 5)
     = [false; false; false; false; true]
  /\ OptionState.calculate_payoff C
       (Examples.feed C x Examples.times Examples.fixings)
     = Ok (1030 # 5)
  /\ 1030 # 5 == 206.
Proof. repeat split. Qed.

(** The mean of the five fixings is [103] and the maximum [105]; a call
    struck at [100] pays [3] on the first and [5] on the second. *)
Example asian_and_max_scenarios :
  let asian := Examples.feed AsianState Examples.call_state
                             Examples.times Examples.fixings in
  let lookback := Examples.feed MaxState Examples.call_state
                                Examples.times Examples.fixings in
  state_variable asian = Some (515 # 5)
  /\ OptionState.calculate_payoff AsianState asian = Ok (15 # 5)
  /\ 15 # 5 == 3
  /\ state_variable lookback = Some 105
  /\ OptionState.calculate_payoff MaxState lookback = Ok 5.
Proof. repeat split. Qed.

(** ** The driver *)

Section DriverProperties.

Context {RNG : Type} (normal : RNG -> Q * RNG).
Context (PC : Process.class) (OC : OptionState.class) (discount : Q -> Q).

(** *** What one call leaves of the objects *)

Lemma process_update_reset (p : Process.t) (t z : Q) :
  Process.reset (fst (Process.update PC p t z)) = Process.reset p.
Proof.
  unfold Process.update.
  now destruct (Process.evolve PC _ _ _).
Qed.

Lemma process_update_state (p p' : Process.t) (t z v : Q) :
  Process.update PC p t z = (p', Ok v) ->
  Process.state p' = Process.StateData.make v t.
Proof.
  unfold Process.update.
  destruct (Process.evolve PC _ _ _); intros E; inversion E; reflexivity.
Qed.

Lemma skip_succ (k : nat) (r : RNG) :
  Pricer.skip normal (S k) r = Pricer.skip normal k (snd (normal r)).
Proof. unfold Pricer.skip. apply Nat.iter_succ_r. Qed.

Lemma skip_add (j k : nat) (r : RNG) :
  Pricer.skip normal (j + k) r = Pricer.skip normal k (Pricer.skip normal j r).
Proof.
  revert r. induction j as [ | j IH ]; intros r; [ reflexivity | ].
  rewrite Nat.add_succ_l, !skip_succ. apply IH.
Qed.

(** *** The loop over the times against the fixings of the specification *)

Lemma spec_fixings_frame (times : list Q) :
  forall p o r p' o' r',
    Pricer.spec_fixings normal PC OC times p o r = Ok (p', o', r') ->
    Process.reset p' = Process.reset p
    /\ OptionState.reset o' = OptionState.reset o
    /\ r' = Pricer.skip normal (length times) r
    /\ (times <> [] ->
        Process.StateData.time (Process.state p') = last times 0).
Proof.
  induction times as [ | t rest IH ]; intros p o r p' o' r' H; simpl in H.
  - inversion H; subst. repeat split. congruence.
  - destruct (normal r) as [ z r1 ] eqn:En.
    destruct (Process.update PC p t z) as [ p1 [ v | e ] ] eqn:Ep;
      [ | discriminate ].
    destruct (OptionState.update OC o t v) as [ o1 [ [] | e ] ] eqn:Eo;
      [ | discriminate ].
    destruct (IH _ _ _ _ _ _ H) as [ Hp [ Ho [ Hr Ht ] ] ].
    split; [ | split; [ | split ] ].
    + rewrite Hp. change p1 with (fst (p1, @Ok Q v)). rewrite <- Ep.
      apply process_update_reset.
    + rewrite Ho. change o1 with (fst (o1, @Ok unit tt)). rewrite <- Eo.
      apply update_reset.
    + simpl length. rewrite skip_succ, En. exact Hr.
    + intros _. destruct rest as [ | t' rest' ].
      * simpl in H. inversion H; subst.
        now rewrite (process_update_state _ _ _ _ _ Ep).
      * change (last (t :: t' :: rest') 0) with (last (t' :: rest') 0).
        apply Ht. discriminate.
Qed.

Lemma for_times_run (times : list Q) :
  forall w,
    match Pricer.spec_fixings normal PC OC times (Pricer.process w)
                              (Pricer.option_state w) (Pricer.random w) with
    | Ok (p, o, r) =>
        Pricer.for_times normal PC OC times w = (Ok tt, Pricer.World p o r)
    | Raise e => fst (Pricer.for_times normal PC OC times w) = Raise e
    end.
Proof.
  induction times as [ | t rest IH ]; intros [ p o r ]; simpl.
  - reflexivity.
  - unfold Pricer.bind, Pricer.draw, Pricer.process_update,
      Pricer.option_state_update. simpl.
    destruct (normal r) as [ z r1 ]. simpl.
    destruct (Process.update PC p t z) as [ p1 [ v | e ] ]; simpl;
      [ | reflexivity ].
    destruct (OptionState.update OC o t v) as [ o1 [ [] | e ] ]; simpl;
      [ | reflexivity ].
    apply (IH (Pricer.World p1 o1 r1)).
Qed.

Lemma do_one_path_run (times : list Q) (w : @Pricer.world RNG) :
  match Pricer.spec_fixings normal PC OC times (Pricer.process w)
                            (Pricer.option_state w) (Pricer.random w) with
  | Ok (p, o, r) =>
      Pricer.do_one_path normal PC OC times w
      = (OptionState.calculate_payoff OC o, Pricer.World p o r)
  | Raise e => fst (Pricer.do_one_path normal PC OC times w) = Raise e
  end.
Proof.
  pose proof (for_times_run times w) as H.
  unfold Pricer.do_one_path, Pricer.bind.
  destruct (Pricer.spec_fixings normal PC OC times _ _ _)
    as [ [ [ p o ] r ] | e ].
  - now rewrite H.
  - destruct (Pricer.for_times normal PC OC times w) as [ [ [] | e' ] w' ];
      simpl in H; [ discriminate | simpl; now inversion H ].
Qed.

Lemma for_paths_zero (times : list Q) (acc : Q) (w : @Pricer.world RNG) :
  Pricer.for_paths normal PC OC 0 times acc w = (Ok acc, w).
Proof. reflexivity. Qed.

(** One turn of the loop over the paths. *)
Lemma for_paths_succ (n : nat) (times : list Q) (acc : Q)
    (w : @Pricer.world RNG) :
  Pricer.for_paths normal PC OC (S n) times acc w
  = match Pricer.do_one_path normal PC OC times
            (Pricer.World (Process.reset (Pricer.process w))
                          (OptionState.reset (Pricer.option_state w))
                          (Pricer.random w)) with
    | (Ok v, w') => Pricer.for_paths normal PC OC n times (acc + v) w'
    | (Raise e, w') => (Raise e, w')
    end.
Proof. reflexivity. Qed.

(** *** The loop over the paths against the payoffs of the specification *)

Lemma for_paths_run (p0 : Process.t) (o0 : OptionState.t) (n : nat) :
  forall acc w,
    Process.reset (Pricer.process w) = Process.reset p0 ->
    OptionState.reset (Pricer.option_state w) = OptionState.reset o0 ->
    match Pricer.spec_payoffs normal PC OC n p0 o0 (Pricer.random w) with
    | Ok vs =>
        exists w',
          Pricer.for_paths normal PC OC n (OptionState.times o0) acc w
          = (Ok (fold_left Qplus vs acc), w')
          /\ Process.reset (Pricer.process w') = Process.reset p0
          /\ OptionState.reset (Pricer.option_state w') = OptionState.reset o0
    | Raise e =>
        fst (Pricer.for_paths normal PC OC n (OptionState.times o0) acc w)
        = Raise e
    end.
Proof.
  induction n as [ | n IH ]; intros acc w Hp Ho.
  - simpl. exists w. now repeat split.
  - rewrite for_paths_succ. simpl Pricer.spec_payoffs.
    unfold Pricer.spec_path.
    rewrite Hp, Ho.
    match goal with
    | |- context [ Pricer.do_one_path normal PC OC ?ts ?w1 ] =>
        pose proof (do_one_path_run ts w1) as H1
    end.
    simpl in H1.
    destruct (Pricer.spec_fixings normal PC OC (OptionState.times o0)
                (Process.reset p0) (OptionState.reset o0) (Pricer.random w))
      as [ [ [ p o ] r ] | e ] eqn:Ef.
    + rewrite H1.
      destruct (spec_fixings_frame _ _ _ _ _ _ _ Ef) as [ Rp [ Ro _ ] ].
      destruct (OptionState.calculate_payoff OC o) as [ v | e ];
        [ | reflexivity ].
      assert (Hp' : Process.reset (Pricer.process (Pricer.World p o r))
                    = Process.reset p0).
      { simpl. rewrite Rp. now destruct p0. }
      assert (Ho' : OptionState.reset
                      (Pricer.option_state (Pricer.World p o r))
                    = OptionState.reset o0).
      { simpl. rewrite Ro. now destruct o0. }
      specialize (IH (acc + v) (Pricer.World p o r) Hp' Ho'). simpl in IH.
      destruct (Pricer.spec_payoffs normal PC OC n p0 o0 r) as [ vs | e ];
        exact IH.
    + destruct (Pricer.do_one_path normal PC OC _ _) as [ [ v | e' ] w' ];
        simpl in H1; [ discriminate | ]. simpl. exact H1.
Qed.

(** C2.  Pricer result: for a path count of at least [1], the driver
    returns what the specification describes: each path starts from the
    reset process and the reset option state, walks the required times in
    order with one draw, one [process.update] and one [option_state.update]
    per time, and contributes [calculate_payoff()]; the result is the sum of
    the contributions, divided by the path count and multiplied by
    [discount(expiry)]; an exception raised on a path is the outcome of the
    call. *)
Theorem mc_path_dependent_result (n_paths : Z) (w : @Pricer.world RNG) :
  (1 <= n_paths)%Z ->
  fst (Pricer.mc_path_dependent normal PC OC discount n_paths w)
  = Pricer.spec_price normal PC OC discount n_paths w.
Proof.
  intros Hn. unfold Pricer.mc_path_dependent, Pricer.spec_price, Pricer.bind.
  pose proof (for_paths_run (Pricer.process w) (Pricer.option_state w)
                (Z.to_nat n_paths) 0 w eq_refl eq_refl) as H.
  destruct (Pricer.spec_payoffs normal PC OC (Z.to_nat n_paths) _ _ _)
    as [ vs | e ].
  - destruct H as [ w' [ -> [ _ Ho ] ] ].
    destruct (Z.eqb_spec n_paths 0) as [ E | _ ]; [ lia | ]. simpl.
    now rewrite (proj2 (reset_attributes _ _ Ho)).
  - destruct (Pricer.for_paths normal PC OC _ _ _ _) as [ [ v | e' ] w' ];
      simpl in H; [ discriminate | exact H ].
Qed.

(** *** The state the driver leaves behind *)

Lemma calculate_payoff_ok_expired (o : OptionState.t) (v : Q) :
  OptionState.calculate_payoff OC o = Ok v ->
  OptionState.has_expired o = true.
Proof.
  unfold OptionState.calculate_payoff.
  now destruct (OptionState.has_expired o).
Qed.

Lemma for_paths_end (p0 : Process.t) (o0 : OptionState.t) (n : nat) :
  forall acc w v w',
    Process.reset (Pricer.process w) = Process.reset p0 ->
    OptionState.reset (Pricer.option_state w) = OptionState.reset o0 ->
    Pricer.for_paths normal PC OC (S n) (OptionState.times o0) acc w
    = (Ok v, w') ->
    Pricer.spec_fixings normal PC OC (OptionState.times o0)
      (Process.reset p0) (OptionState.reset o0)
      (Pricer.skip normal (n * length (OptionState.times o0))
                   (Pricer.random w))
    = Ok (Pricer.process w', Pricer.option_state w', Pricer.random w')
    /\ OptionState.has_expired (Pricer.option_state w') = true.
Proof.
  induction n as [ | n IH ]; intros acc w v w' Hp Ho Hrun;
    rewrite for_paths_succ in Hrun; rewrite Hp, Ho in Hrun;
    match type of Hrun with
    | context [ Pricer.do_one_path normal PC OC ?ts ?w1 ] =>
        pose proof (do_one_path_run ts w1) as H1
    end;
    simpl in H1;
    destruct (Pricer.spec_fixings normal PC OC (OptionState.times o0)
                (Process.reset p0) (OptionState.reset o0) (Pricer.random w))
      as [ [ [ p o ] r ] | e ] eqn:Ef.
  - rewrite H1 in Hrun.
    destruct (OptionState.calculate_payoff OC o) as [ v1 | e ] eqn:Ec;
      [ | discriminate ].
    rewrite for_paths_zero in Hrun. inversion Hrun; subst. simpl.
    split; [ exact Ef | exact (calculate_payoff_ok_expired _ _ Ec) ].
  - destruct (Pricer.do_one_path normal PC OC _ _) as [ [ v1 | e' ] w1 ];
      simpl in H1; discriminate.
  - rewrite H1 in Hrun.
    destruct (OptionState.calculate_payoff OC o) as [ v1 | e ];
      [ | discriminate ].
    destruct (spec_fixings_frame _ _ _ _ _ _ _ Ef) as [ Rp [ Ro [ Rr _ ] ] ].
    assert (Hp' : Process.reset (Pricer.process (Pricer.World p o r))
                  = Process.reset p0).
    { simpl. rewrite Rp. now destruct p0. }
    assert (Ho' : OptionState.reset (Pricer.option_state (Pricer.World p o r))
                  = OptionState.reset o0).
    { simpl. rewrite Ro. now destruct o0. }
    specialize (IH _ _ _ _ Hp' Ho' Hrun). simpl in IH.
    rewrite Rr, <- skip_add in IH. exact IH.
  - destruct (Pricer.do_one_path normal PC OC _ _) as [ [ v1 | e' ] w1 ];
      simpl in H1; discriminate.
Qed.

(** C10.  Residual argument state: when a call with a path count of at
    least [1] returns a value, the process, the option state and the
    generator it leaves behind are those at the end of the last simulated
    path, the one that starts, from the reset objects, after the draws of
    the paths before it; that option state is expired, and the state of the
    process stands at the last required time. *)
Theorem mc_leaves_last_path_state (n_paths : Z) (w : @Pricer.world RNG)
    (price : Q) :
  (1 <= n_paths)%Z ->
  fst (Pricer.mc_path_dependent normal PC OC discount n_paths w) = Ok price ->
  let w' := snd (Pricer.mc_path_dependent normal PC OC discount n_paths w) in
  let times := OptionState.times (Pricer.option_state w) in
  Pricer.spec_fixings normal PC OC times
    (Process.reset (Pricer.process w))
    (OptionState.reset (Pricer.option_state w))
    (Pricer.skip normal ((Z.to_nat n_paths - 1) * length times)
                 (Pricer.random w))
  = Ok (Pricer.process w', Pricer.option_state w', Pricer.random w')
  /\ OptionState.has_expired (Pricer.option_state w') = true
  /\ Process.StateData.time (Process.state (Pricer.process w'))
     = last times 0.
Proof.
  intros Hn Hok w' times. subst w'.
  unfold Pricer.mc_path_dependent, Pricer.bind in *. fold times in Hok |- *.
  destruct (Z.to_nat n_paths) as [ | n ] eqn:En; [ lia | ].
  destruct (Pricer.for_paths normal PC OC (S n) times 0 w)
    as [ [ s | e ] w1 ] eqn:Erun; [ | discriminate ].
  destruct (Z.eqb_spec n_paths 0) as [ E | _ ]; [ lia | ]. simpl snd.
  destruct (for_paths_end (Pricer.process w) (Pricer.option_state w) n
              0 w s w1 eq_refl eq_refl Erun) as [ Hf He ].
  replace (S n - 1)%nat with n by lia. fold times in Hf.
  split; [ exact Hf | split; [ exact He | ] ].
  destruct (spec_fixings_frame _ _ _ _ _ _ _ Hf) as [ _ [ _ [ _ Ht ] ] ].
  apply Ht. intros Enil. rewrite Enil in Hf. simpl in Hf.
  inversion Hf as [ [ Ep Eo Er ] ]. rewrite <- Eo in He. discriminate.
Qed.

(** C9 (as the code has it).  A non-positive path count simulates no path
    and leaves both arguments and the generator untouched.  With a count of
    [0] the call raises [ZeroDivisionError] from the final division; with a
    negative count it raises nothing and returns
    [0 / n_paths * discount(expiry)], which is zero. *)
Theorem mc_nonpositive_paths (n_paths : Z) (w : @Pricer.world RNG) :
  (n_paths <= 0)%Z ->
  Pricer.mc_path_dependent normal PC OC discount n_paths w
  = (if (n_paths =? 0)%Z then Raise ZeroDivisionError
     else Ok (0 / inject_Z n_paths
              * discount (OptionState.expiry (Pricer.option_state w))), w)
  /\ 0 / inject_Z n_paths
     * discount (OptionState.expiry (Pricer.option_state w)) == 0.
Proof.
  intros Hn. split.
  - destruct n_paths as [ | n | n ]; [ reflexivity | lia | reflexivity ].
  - unfold Qdiv. rewrite !Qmult_0_l. reflexivity.
Qed.

End DriverProperties.

Lemma mc_nonpositive_paths_witness :
  (-2 <= 0)%Z /\
  Pricer.mc_path_dependent Examples.cycle Examples.bs_class (UpAndOut 120)
    Examples.yield_curve_discount (-2) Examples.world0
  = (Ok (0 # 400), Examples.world0).
Proof.
  assert (H : (-2 <= 0)%Z) by lia.
  split; [ exact H | ].
  rewrite (proj1 (mc_nonpositive_paths Examples.cycle Examples.bs_class
                    (UpAndOut 120) Examples.yield_curve_discount
                    (-2) Examples.world0 H)).
  reflexivity.
Defined.

(** C9, refuted as stated: with a path count of [-2] the pricer raises
    nothing; it returns a (zero) value. *)
Lemma mc_negative_paths_returns :
  fst (Pricer.mc_path_dependent Examples.cycle Examples.bs_class
         (UpAndOut 120) Examples.yield_curve_discount (-2) Examples.world0)
  = Ok (0 # 400).
Proof. reflexivity. Qed.

Lemma mc_path_dependent_result_witness :
  (1 <= 2)%Z /\
  fst (Pricer.mc_path_dependent Examples.cycle Examples.bs_class
         (UpAndOut 200) Examples.yield_curve_discount 2 Examples.world0)
  = Ok (90518100 # 2500000000).
Proof.
  assert (H : (1 <= 2)%Z) by lia.
  split; [ exact H | ].
  rewrite (mc_path_dependent_result Examples.cycle Examples.bs_class
             (UpAndOut 200) Examples.yield_curve_discount
             2 Examples.world0 H).
  vm_compute. reflexivity.
Defined.

Lemma mc_leaves_last_path_state_witness :
  (1 <= 2)%Z
  /\ OptionState.has_expired
       (Pricer.option_state
          (snd (Pricer.mc_path_dependent Examples.cycle Examples.bs_class
                  (UpAndOut 200) Examples.yield_curve_discount
                  2 Examples.world0))) = true
  /\ Process.StateData.time
       (Process.state
          (Pricer.process
             (snd (Pricer.mc_path_dependent Examples.cycle Examples.bs_class
                     (UpAndOut 200) Examples.yield_curve_discount
                     2 Examples.world0)))) = 5.
Proof.
  assert (H : (1 <= 2)%Z) by lia.
  assert (Hok : fst (Pricer.mc_path_dependent Examples.cycle
                       Examples.bs_class (UpAndOut 200)
                       Examples.yield_curve_discount 2 Examples.world0)
                = Ok (90518100 # 2500000000)).
  { vm_compute. reflexivity. }
  destruct (mc_leaves_last_path_state Examples.cycle Examples.bs_class
              (UpAndOut 200) Examples.yield_curve_discount
              2 Examples.world0 _ H Hok) as [ _ [ He Ht ] ].
  split; [ exact H | ]. split; [ exact He | exact Ht ].
Defined.

(** * Further properties of the code *)

(** ** Process, BlackScholesProcess and Call *)

(** X1.  [reset()] forgets the path: after any sequence of [update] calls,
    whether they returned or raised, [reset()] puts the process back in the
    state [StateData(spot, 0)] of its construction; [reset()] twice is
    [reset()] once. *)
Theorem process_reset_after_run (C : Process.class) (p : Process.t)
    (steps : list (Q * Q)) :
  Process.reset (process_run C p steps)
  = Process.make (Process.spot p)
                 (Process.StateData.make (Process.spot p) 0)
  /\ Process.reset (Process.reset (process_run C p steps))
     = Process.reset (process_run C p steps).
Proof.
  split; [ | reflexivity ].
  revert p. induction steps as [ | [ t z ] rest IH ]; intros p; simpl.
  - reflexivity.
  - rewrite IH.
    pose proof (process_update_reset C p t z) as E.
    unfold Process.reset in E. now inversion E.
Qed.


(** X3.  [Call(strike)] applied to a number returns the larger of
    [spot - strike] and [0]: never negative, never below [spot - strike],
    and one of the two; applied to [None] it raises [TypeError]. *)
Theorem call_payoff_is_positive_part (strike spot : Q) :
  (exists v, Call strike (Some spot) = Ok v
             /\ 0 <= v /\ spot - strike <= v
             /\ (v = 0 \/ v = spot - strike))
  /\ Call strike None = Raise TypeError.
Proof.
  split; [ | reflexivity ].
  unfold Call, np_maximum.
  destruct (py_lt (spot - strike) 0) eqn:E.
  - apply py_lt_iff in E. exists 0.
    split; [ reflexivity | ].
    split; [ apply Qle_refl | ]. split; [ now apply Qlt_le_weak | now left ].
  - apply py_lt_false_iff in E. exists (spot - strike).
    split; [ reflexivity | ].
    split; [ exact E | ]. split; [ apply Qle_refl | now right ].
Qed.

(** ** The record of an OptionState *)

Lemma py_eq_sym (x y : Q) : py_eq x y = py_eq y x.
Proof.
  destruct (py_eq x y) eqn:E1, (py_eq y x) eqn:E2; try reflexivity.
  - apply py_eq_iff in E1. symmetry in E1. apply py_eq_iff in E1. congruence.
  - apply py_eq_iff in E2. symmetry in E2. apply py_eq_iff in E2. congruence.
Qed.

Lemma py_in_app (x : Q) (l l' : list Q) :
  py_in x (l ++ l') = py_in x l || py_in x l'.
Proof. unfold py_in. apply existsb_app. Qed.

Lemma distinct_app_one (l : list Q) (t : Q) :
  distinct l = true -> py_in t l = false -> distinct (l ++ [t]) = true.
Proof.
  induction l as [ | x xs IH ]; intros D H; simpl in *; [ reflexivity | ].
  apply andb_prop in D as [ D1 D2 ].
  apply orb_false_elim in H as [ H1 H2 ].
  rewrite py_in_app, IH by assumption. simpl.
  rewrite orb_false_r, py_eq_sym, H1.
  apply negb_true_iff in D1. now rewrite D1.
Qed.

(** What one [update] can do to the record. *)
Lemma update_cases (C : OptionState.class) (o : OptionState.t) (t v : Q) :
  (OptionState.update C o t v = (o, Ok tt)
   /\ (py_in t (OptionState.times o) = false \/ py_in t (recorded o) = true))
  \/ (py_in t (OptionState.times o) = true
      /\ py_in t (recorded o) = false
      /\ recorded (fst (OptionState.update C o t v)) = recorded o ++ [t]
      /\ observed (fst (OptionState.update C o t v)) = observed o ++ [v]).
Proof.
  destruct (py_in t (OptionState.times o)) eqn:Ht.
  - destruct (py_in t (recorded o)) eqn:Hu.
    + left. split; [ apply update_rejected | ]; now right.
    + right. destruct (update_accepted C o t v Ht Hu) as [ E1 E2 ].
      now repeat split.
  - left. split; [ apply update_rejected | ]; now left.
Qed.

Lemma reachable_record (C : OptionState.class) (spot expiry : Q)
    (payoff : option Q -> result Q) (times : list Q) (o : OptionState.t) :
  reachable C spot expiry payoff times o ->
  length (recorded o) = length (observed o)
  /\ forallb (fun u => py_in u times) (recorded o) = true
  /\ distinct (recorded o) = true.
Proof.
  intros R.
  pose proof (reset_attributes _ _
                (reachable_reset C spot expiry payoff times o R)) as [ Et _ ].
  simpl in Et. revert Et.
  induction R as [ | o R IH | o t v R IH ]; intros Et.
  - now repeat split.
  - now repeat split.
  - assert (Eo : OptionState.times o = times).
    { rewrite <- Et. symmetry.
      exact (proj1 (reset_attributes _ _ (update_reset C o t v))). }
    destruct (IH Eo) as [ L [ M D ] ].
    destruct (update_cases C o t v) as [ [ E _ ] | [ Ht [ Hu [ E1 E2 ] ] ] ].
    + rewrite E. simpl. now repeat split.
    + rewrite E1, E2. split; [ | split ].
      * rewrite !length_app. simpl. now rewrite L.
      * rewrite forallb_app, M. simpl. rewrite Eo in Ht. now rewrite Ht.
      * now apply distinct_app_one.
Qed.

(** X4.  Expiry is monotone: once [has_expired()] is true it stays true
    after any further [update], accepted, ignored or raising; only
    [reset()] makes it false again. *)
Theorem expiry_is_monotone (C : OptionState.class) (o : OptionState.t)
    (t v : Q) :
  OptionState.has_expired o = true ->
  OptionState.has_expired (fst (OptionState.update C o t v)) = true
  /\ OptionState.has_expired
       (OptionState.reset (fst (OptionState.update C o t v))) = false.
Proof.
  intros H. split; [ | reflexivity ].
  apply has_expired_iff in H as [ u [ Hu Hle ] ].
  apply has_expired_iff.
  rewrite (proj2 (reset_attributes _ _ (update_reset C o t v))).
  exists u. split; [ | exact Hle ].
  destruct (update_cases C o t v) as [ [ E _ ] | [ _ [ _ [ E _ ] ] ] ].
  - now rewrite E.
  - rewrite E. apply in_or_app. now left.
Qed.

Lemma expiry_is_monotone_witness :
  OptionState.has_expired Examples.early = true
  /\ OptionState.has_expired
       (fst (OptionState.update (UpAndOut 120) Examples.early 1 101)) = true.
Proof.
  assert (H : OptionState.has_expired Examples.early = true) by reflexivity.
  split; [ exact H | ].
  exact (proj1 (expiry_is_monotone (UpAndOut 120) Examples.early 1 101 H)).
Defined.

(** X5.  The record stays well formed: in every state reachable from
    construction by [reset] and [update] calls there are as many recorded
    times as observed values, every recorded time is one of the required
    times, and no time is recorded twice. *)
Theorem record_is_well_formed (C : OptionState.class) (spot expiry : Q)
    (payoff : option Q -> result Q) (times : list Q) (o : OptionState.t) :
  reachable C spot expiry payoff times o ->
  length (recorded o) = length (observed o)
  /\ forallb (fun u => py_in u times) (recorded o) = true
  /\ distinct (recorded o) = true.
Proof. apply reachable_record. Qed.

Lemma record_is_well_formed_witness :
  length (recorded Examples.alive) = length (observed Examples.alive)
  /\ forallb (fun u => py_in u Examples.times) (recorded Examples.alive) = true
  /\ distinct (recorded Examples.alive) = true.
Proof.
  apply (record_is_well_formed (UpAndOut 120) Examples.S_0 Examples.T
           (Call 100) Examples.times Examples.alive).
  apply reachable_feed. apply reach_init.
Defined.

(** ** The state variable and the hooks *)

Lemma observed_nonempty_app (l : list Q) (v : Q) : l ++ [v] <> [].
Proof. now destruct l. Qed.

(** X6.  The state variable is never stale: for a class whose
    [calculate_state_variable] reads the observed values only and returns a
    value on a non-empty record ([BarrierState] and its variants,
    [AsianState], [MaxState]), in every reachable state a state variable
    that is set is what [calculate_state_variable()] returns on the current
    record. *)
Theorem state_variable_matches_record (C : OptionState.class)
    (spot expiry : Q) (payoff : option Q -> result Q) (times : list Q)
    (o : OptionState.t) (x : Q) :
  reads_observed_only C -> state_variable_defined C ->
  reachable C spot expiry payoff times o ->
  state_variable o = Some x ->
  OptionState.calculate_state_variable C o = Ok x.
Proof.
  intros RO D R. revert x.
  induction R as [ | o R IH | o t v R IH ]; intros x; try discriminate.
  unfold OptionState.update.
  destruct (_ && _); [ | apply IH ].
  unfold OptionState.update_state.
  match goal with
  | |- context [ OptionState.has_expired ?o' ] =>
      destruct (OptionState.has_expired o');
      [ destruct (D o') as [ v0 E ];
        [ apply observed_nonempty_app | rewrite E ] | ]
  end.
  - simpl. intros Hx. injection Hx as <-. rewrite <- E. now apply RO.
  - discriminate.
Qed.

Lemma state_variable_matches_record_witness :
  state_variable (Examples.feed MaxState Examples.call_state
                                Examples.times Examples.fixings) = Some 105
  /\ py_max Examples.fixings = Ok 105.
Proof.
  assert (RO : reads_observed_only MaxState).
  { intros o o' E. simpl. now rewrite E. }
  assert (D : state_variable_defined MaxState).
  { intros o Hne. simpl. destruct (observed o); [ congruence | ].
    eexists. reflexivity. }
  assert (R : reachable MaxState Examples.S_0 Examples.T (Call 100)
                Examples.times
                (Examples.feed MaxState Examples.call_state
                               Examples.times Examples.fixings)).
  { apply reachable_feed. apply reach_init. }
  assert (S : state_variable
                (Examples.feed MaxState Examples.call_state
                               Examples.times Examples.fixings) = Some 105)
    by reflexivity.
  split; [ exact S | ].
  exact (state_variable_matches_record _ _ _ _ _ _ _ RO D R S).
Defined.

(** X7.  With a class whose [calculate_state_variable] returns a value on
    a non-empty record, [update] never raises, from any state at all (also
    one built from a supplied [state_data]): the hook only runs after the
    new value has been appended. *)
Theorem update_never_raises (C : OptionState.class) (o : OptionState.t)
    (t v : Q) :
  state_variable_defined C ->
  snd (OptionState.update C o t v) = Ok tt.
Proof.
  intros D. unfold OptionState.update.
  destruct (_ && _); [ | reflexivity ].
  unfold OptionState.update_state.
  match goal with
  | |- context [ OptionState.has_expired ?o' ] =>
      destruct (OptionState.has_expired o'); [ | reflexivity ];
      destruct (D o') as [ v0 E ]; [ apply observed_nonempty_app | ]
  end.
  now rewrite E.
Qed.

Lemma update_never_raises_witness :
  snd (OptionState.update (DownAndIn 80) Examples.call_state 5 70) = Ok tt.
Proof.
  apply update_never_raises.
  now apply barrier_state_variable_defined.
Defined.

(** X8.  With the base class [OptionState], an accepted [update] at a
    time at or after [expiry] raises [NotImplementedError], but only after
    the time and the value were appended: the record keeps both, the state
    variable keeps its old value, the state now counts as expired, and the
    same [update] called again is silently ignored. *)
Theorem base_update_raises_after_append (o : OptionState.t) (t v : Q) :
  py_in t (OptionState.times o) = true ->
  py_in t (recorded o) = false ->
  OptionState.expiry o <= t ->
  let o' := fst (OptionState.update OptionState.base o t v) in
  snd (OptionState.update OptionState.base o t v) = Raise NotImplementedError
  /\ recorded o' = recorded o ++ [t]
  /\ observed o' = observed o ++ [v]
  /\ state_variable o' = state_variable o
  /\ OptionState.has_expired o' = true
  /\ OptionState.update OptionState.base o' t v = (o', Ok tt).
Proof.
  intros Ht Hu Hle o'.
  destruct (update_accepted OptionState.base o t v Ht Hu) as [ E1 E2 ].
  fold o' in E1, E2.
  assert (He : OptionState.has_expired o' = true).
  { apply has_expired_iff.
    unfold o'.
    rewrite (proj2 (reset_attributes _ _
                      (update_reset OptionState.base o t v))).
    exists t. split; [ | exact Hle ].
    fold o'. rewrite E1. apply in_or_app. right. now left. }
  assert (Hraise :
            OptionState.update OptionState.base o t v
            = (OptionState.set_state_data o
                 (OptionState.StateData.make
                    (recorded o ++ [t]) (observed o ++ [v])
                    (state_variable o)),
               Raise NotImplementedError)).
  { unfold OptionState.update. fold (recorded o). rewrite Ht, Hu. simpl.
    unfold OptionState.update_state.
    match goal with
    | |- context [ OptionState.has_expired ?s ] =>
        replace (OptionState.has_expired s) with true; [ reflexivity | ]
    end.
    symmetry. apply has_expired_iff. exists t.
    split; [ apply in_or_app; right; now left | exact Hle ]. }
  split; [ now rewrite Hraise | ].
  split; [ exact E1 | ]. split; [ exact E2 | ].
  split; [ unfold o'; now rewrite Hraise | ].
  split; [ exact He | ].
  apply update_rejected. right. rewrite E1. apply py_in_app_self.
Qed.

Lemma base_update_raises_after_append_witness :
  snd (OptionState.update OptionState.base Examples.call_state 5 105)
  = Raise NotImplementedError
  /\ observed (fst (OptionState.update OptionState.base
                      Examples.call_state 5 105)) = [105]
  /\ OptionState.has_expired
       (fst (OptionState.update OptionState.base Examples.call_state 5 105))
     = true.
Proof.
  assert (Ht : py_in 5 (OptionState.times Examples.call_state) = true)
    by reflexivity.
  assert (Hu : py_in 5 (recorded Examples.call_state) = false)
    by reflexivity.
  assert (Hle : OptionState.expiry Examples.call_state <= 5)
    by discriminate.
  destruct (base_update_raises_after_append Examples.call_state 5 105
              Ht Hu Hle) as [ H1 [ _ [ H3 [ _ [ H5 _ ] ] ] ] ].
  split; [ exact H1 | ]. split; [ exact H3 | exact H5 ].
Defined.

(** ** Knock-in and knock-out together *)

Lemma py_lt_irrefl_eq (x y : Q) : x == y -> py_lt x y = false.
Proof. intros E. apply py_lt_false_iff. rewrite E. apply Qle_refl. Qed.

Lemma py_lt_asym (x y : Q) : py_lt x y = true -> py_lt y x = false.
Proof.
  intros H. apply py_lt_iff in H. apply py_lt_false_iff.
  now apply Qlt_le_weak.
Qed.

Lemma calculate_payoff_active (C : OptionState.class) (o : OptionState.t)
    (b : bool) (v : Q) :
  OptionState.has_expired o = true ->
  OptionState.is_payoff_active C o = Ok b ->
  OptionState.payoff o (state_variable o) = Ok v ->
  OptionState.calculate_payoff C o = Ok (if b then v else 0).
Proof.
  intros He Ha Hp. unfold OptionState.calculate_payoff.
  rewrite He, Ha. now destruct b.
Qed.

(** X9.  Up-and-In against Up-and-Out on one expired record whose payoff
    function returns [v]: when the maximum observed value is below the
    barrier the knock-out pays [v] and the knock-in [0]; when it is above,
    the knock-out pays [0] and the knock-in [v]; when it equals the barrier
    both pay [0].  So the two add up to [v] except at a touch. *)
Theorem up_in_out_parity (barrier : Q) (o : OptionState.t) (m v : Q) :
  OptionState.has_expired o = true ->
  py_max (observed o) = Ok m ->
  OptionState.payoff o (state_variable o) = Ok v ->
  (m < barrier ->
   OptionState.calculate_payoff (UpAndOut barrier) o = Ok v
   /\ OptionState.calculate_payoff (UpAndIn barrier) o = Ok 0)
  /\ (barrier < m ->
      OptionState.calculate_payoff (UpAndOut barrier) o = Ok 0
      /\ OptionState.calculate_payoff (UpAndIn barrier) o = Ok v)
  /\ (m == barrier ->
      OptionState.calculate_payoff (UpAndOut barrier) o = Ok 0
      /\ OptionState.calculate_payoff (UpAndIn barrier) o = Ok 0).
Proof.
  intros He Em Hp.
  assert (Hout : OptionState.is_payoff_active (UpAndOut barrier) o
                 = Ok (py_lt m barrier)) by (simpl; now rewrite Em).
  assert (Hin : OptionState.is_payoff_active (UpAndIn barrier) o
                = Ok (py_lt barrier m)) by (simpl; now rewrite Em).
  rewrite (calculate_payoff_active _ _ _ _ He Hout Hp).
  rewrite (calculate_payoff_active _ _ _ _ He Hin Hp).
  split; [ | split ]; intros H.
  - apply py_lt_iff in H. now rewrite (py_lt_asym _ _ H), H.
  - apply py_lt_iff in H. now rewrite (py_lt_asym _ _ H), H.
  - rewrite (py_lt_irrefl_eq _ _ H).
    symmetry in H. now rewrite (py_lt_irrefl_eq _ _ H).
Qed.

Lemma up_in_out_parity_witness :
  OptionState.calculate_payoff (UpAndOut 120) Examples.alive = Ok 10
  /\ OptionState.calculate_payoff (UpAndIn 120) Examples.alive = Ok 0
  /\ OptionState.calculate_payoff (UpAndOut 120) Examples.knocked = Ok 0
  /\ OptionState.calculate_payoff (UpAndIn 120) Examples.knocked = Ok 10
  /\ OptionState.calculate_payoff (UpAndOut 120) Examples.touching = Ok 0
  /\ OptionState.calculate_payoff (UpAndIn 120) Examples.touching = Ok 0.
Proof.
  destruct (up_in_out_parity 120 Examples.alive 110 10
              eq_refl eq_refl eq_refl) as [ below _ ].
  destruct (up_in_out_parity 120 Examples.knocked 125 10
              eq_refl eq_refl eq_refl) as [ _ [ above _ ] ].
  destruct (up_in_out_parity 120 Examples.touching 120 10
              eq_refl eq_refl eq_refl) as [ _ [ _ touch ] ].
  destruct below as [ B1 B2 ]; [ reflexivity | ].
  destruct above as [ A1 A2 ]; [ reflexivity | ].
  destruct touch as [ T1 T2 ]; [ reflexivity | ].
  repeat apply conj; assumption.
Defined.

(** X10.  Down-and-In against Down-and-Out, the same with the minimum
    observed value: above the barrier the knock-out pays [v] and the
    knock-in [0], below it the other way round, and at the barrier both pay
    [0]. *)
Theorem down_in_out_parity (barrier : Q) (o : OptionState.t) (m v : Q) :
  OptionState.has_expired o = true ->
  py_min (observed o) = Ok m ->
  OptionState.payoff o (state_variable o) = Ok v ->
  (barrier < m ->
   OptionState.calculate_payoff (DownAndOut barrier) o = Ok v
   /\ OptionState.calculate_payoff (DownAndIn barrier) o = Ok 0)
  /\ (m < barrier ->
      OptionState.calculate_payoff (DownAndOut barrier) o = Ok 0
      /\ OptionState.calculate_payoff (DownAndIn barrier) o = Ok v)
  /\ (m == barrier ->
      OptionState.calculate_payoff (DownAndOut barrier) o = Ok 0
      /\ OptionState.calculate_payoff (DownAndIn barrier) o = Ok 0).
Proof.
  intros He Em Hp.
  assert (Hout : OptionState.is_payoff_active (DownAndOut barrier) o
                 = Ok (py_lt barrier m)) by (simpl; now rewrite Em).
  assert (Hin : OptionState.is_payoff_active (DownAndIn barrier) o
                = Ok (py_lt m barrier)) by (simpl; now rewrite Em).
  rewrite (calculate_payoff_active _ _ _ _ He Hout Hp).
  rewrite (calculate_payoff_active _ _ _ _ He Hin Hp).
  split; [ | split ]; intros H.
  - apply py_lt_iff in H. now rewrite (py_lt_asym _ _ H), H.
  - apply py_lt_iff in H. now rewrite (py_lt_asym _ _ H), H.
  - rewrite (py_lt_irrefl_eq _ _ H).
    symmetry in H. now rewrite (py_lt_irrefl_eq _ _ H).
Qed.

Lemma down_in_out_parity_witness :
  OptionState.calculate_payoff (DownAndOut 80) Examples.alive = Ok 10
  /\ OptionState.calculate_payoff (DownAndIn 80) Examples.alive = Ok 0
  /\ OptionState.calculate_payoff (DownAndOut 102) Examples.alive = Ok 0
  /\ OptionState.calculate_payoff (DownAndIn 102) Examples.alive = Ok 10
  /\ OptionState.calculate_payoff (DownAndOut 101) Examples.alive = Ok 0
  /\ OptionState.calculate_payoff (DownAndIn 101) Examples.alive = Ok 0.
Proof.
  destruct (down_in_out_parity 80 Examples.alive 101 10
              eq_refl eq_refl eq_refl) as [ above _ ].
  destruct (down_in_out_parity 102 Examples.alive 101 10
              eq_refl eq_refl eq_refl) as [ _ [ below _ ] ].
  destruct (down_in_out_parity 101 Examples.alive 101 10
              eq_refl eq_refl eq_refl) as [ _ [ _ touch ] ].
  destruct above as [ A1 A2 ]; [ reflexivity | ].
  destruct below as [ B1 B2 ]; [ reflexivity | ].
  destruct touch as [ T1 T2 ]; [ reflexivity | ].
  repeat apply conj; assumption.
Defined.

Lemma max_from_app_one (x : Q) (l : list Q) (v : Q) :
  max_from x (l ++ [v])
  = if py_lt (max_from x l) v then v else max_from x l.
Proof. unfold max_from. now rewrite fold_left_app. Qed.

Lemma min_from_app_one (x : Q) (l : list Q) (v : Q) :
  min_from x (l ++ [v])
  = if py_lt v (min_from x l) then v else min_from x l.
Proof. unfold min_from. now rewrite fold_left_app. Qed.

(** What one [update] does to the running maximum and minimum of a record
    that has at least one value. *)
Lemma update_extrema (C : OptionState.class) (o : OptionState.t) (t v : Q)
    (hi lo : Q) :
  py_max (observed o) = Ok hi -> py_min (observed o) = Ok lo ->
  exists hi' lo',
    py_max (observed (fst (OptionState.update C o t v))) = Ok hi'
    /\ py_min (observed (fst (OptionState.update C o t v))) = Ok lo'
    /\ hi <= hi' /\ lo' <= lo.
Proof.
  intros Ehi Elo.
  destruct (update_cases C o t v) as [ [ E _ ] | [ _ [ _ [ _ E ] ] ] ].
  - rewrite E. exists hi, lo. simpl.
    repeat split; auto; apply Qle_refl.
  - rewrite E. destruct (observed o) as [ | x xs ]; [ discriminate | ].
    simpl in Ehi, Elo. injection Ehi as <-. injection Elo as <-.
    exists (max_from x (xs ++ [v])), (min_from x (xs ++ [v])).
    split; [ reflexivity | ]. split; [ reflexivity | ].
    rewrite max_from_app_one, min_from_app_one. split.
    + destruct (py_lt (max_from x xs) v) eqn:L; [ | apply Qle_refl ].
      apply py_lt_iff in L. now apply Qlt_le_weak.
    + destruct (py_lt v (min_from x xs)) eqn:L; [ | apply Qle_refl ].
      apply py_lt_iff in L. now apply Qlt_le_weak.
Qed.

(** X11.  Knocking is final: whatever [update] follows, an Up-and-Out or
    Down-and-Out state that is not active stays not active, and an Up-and-In
    or Down-and-In state that is active stays active. *)
Theorem knock_is_final (C : OptionState.class) (barrier : Q)
    (o : OptionState.t) (t v : Q) :
  let o' := fst (OptionState.update C o t v) in
  (OptionState.is_payoff_active (UpAndOut barrier) o = Ok false ->
   OptionState.is_payoff_active (UpAndOut barrier) o' = Ok false)
  /\ (OptionState.is_payoff_active (DownAndOut barrier) o = Ok false ->
      OptionState.is_payoff_active (DownAndOut barrier) o' = Ok false)
  /\ (OptionState.is_payoff_active (UpAndIn barrier) o = Ok true ->
      OptionState.is_payoff_active (UpAndIn barrier) o' = Ok true)
  /\ (OptionState.is_payoff_active (DownAndIn barrier) o = Ok true ->
      OptionState.is_payoff_active (DownAndIn barrier) o' = Ok true).
Proof.
  intros o'. unfold o'. simpl.
  destruct (observed o) as [ | x xs ] eqn:Eobs.
  { repeat split; discriminate. }
  destruct (update_extrema C o t v (max_from x xs) (min_from x xs))
    as [ hi' [ lo' [ Ehi [ Elo [ Hhi Hlo ] ] ] ] ];
    try (rewrite Eobs; reflexivity).
  rewrite Ehi, Elo. simpl.
  repeat split; intros H; injection H as H; f_equal.
  - apply py_lt_false_iff in H. apply py_lt_false_iff.
    now apply Qle_trans with (max_from x xs).
  - apply py_lt_false_iff in H. apply py_lt_false_iff.
    now apply Qle_trans with (min_from x xs).
  - apply py_lt_iff in H. apply py_lt_iff.
    now apply Qlt_le_trans with (max_from x xs).
  - apply py_lt_iff in H. apply py_lt_iff.
    now apply Qle_lt_trans with (min_from x xs).
Qed.

Lemma knock_is_final_witness :
  OptionState.is_payoff_active (UpAndOut 120)
    (Examples.feed (UpAndOut 120) Examples.call_state [1; 2] [101; 125])
  = Ok false
  /\ OptionState.is_payoff_active (UpAndOut 120)
       (Examples.feed (UpAndOut 120) Examples.call_state
                      [1; 2; 3] [101; 125; 103])
     = Ok false.
Proof.
  assert (H : OptionState.is_payoff_active (UpAndOut 120)
                (Examples.feed (UpAndOut 120) Examples.call_state
                               [1; 2] [101; 125]) = Ok false)
    by reflexivity.
  split; [ exact H | ].
  exact (proj1 (knock_is_final (UpAndOut 120) 120 _ 3 103) H).
Defined.

(** ** The driver *)

Section DriverFurther.

Context {RNG : Type} (normal : RNG -> Q * RNG).
Context (PC : Process.class) (OC : OptionState.class) (discount : Q -> Q).

(** The loop over the times leaves the constructor attributes alone,
    whether it ends or raises. *)
Lemma for_times_frame (times : list Q) :
  forall w,
    Process.reset (Pricer.process (snd (Pricer.for_times normal PC OC times w)))
    = Process.reset (Pricer.process w)
    /\ OptionState.reset
         (Pricer.option_state (snd (Pricer.for_times normal PC OC times w)))
       = OptionState.reset (Pricer.option_state w).
Proof.
  induction times as [ | t rest IH ]; intros [ p o r ]; simpl.
  - now split.
  - unfold Pricer.bind, Pricer.draw, Pricer.process_update,
      Pricer.option_state_update. simpl.
    destruct (normal r) as [ z r1 ]. simpl.
    pose proof (process_update_reset PC p t z) as Hp.
    destruct (Process.update PC p t z) as [ p1 [ v | e ] ]; simpl in *;
      [ | now split ].
    pose proof (update_reset OC o t v) as Ho.
    destruct (OptionState.update OC o t v) as [ o1 [ [] | e ] ]; simpl in *;
      [ | now split ].
    destruct (IH (Pricer.World p1 o1 r1)) as [ H1 H2 ]. simpl in H1, H2.
    split; congruence.
Qed.

Lemma for_paths_frame (times : list Q) (n : nat) :
  forall acc w,
    Process.reset
      (Pricer.process (snd (Pricer.for_paths normal PC OC n times acc w)))
    = Process.reset (Pricer.process w)
    /\ OptionState.reset
         (Pricer.option_state
            (snd (Pricer.for_paths normal PC OC n times acc w)))
       = OptionState.reset (Pricer.option_state w).
Proof.
  induction n as [ | n IH ]; intros acc w; [ now split | ].
  rewrite for_paths_succ. unfold Pricer.do_one_path, Pricer.bind.
  match goal with
  | |- context [ Pricer.for_times normal PC OC times ?w1 ] =>
      pose proof (for_times_frame times w1) as [ H1 H2 ];
      destruct (Pricer.for_times normal PC OC times w1)
        as [ [ [] | e ] w2 ]
  end; simpl snd in H1, H2; simpl Pricer.process in H1;
    simpl Pricer.option_state in H2.
  - unfold Pricer.calculate_payoff.
    destruct (OptionState.calculate_payoff OC (Pricer.option_state w2));
      simpl snd.
    + destruct (IH (acc + a) w2) as [ I1 I2 ].
      split; [ now rewrite I1, H1 | now rewrite I2, H2 ].
    + split; [ now rewrite H1 | now rewrite H2 ].
  - simpl snd. split; [ now rewrite H1 | now rewrite H2 ].
Qed.

(** X12.  The driver never touches the constructor attributes of its
    arguments: whether the call returns or raises, the process left behind
    resets to what the process passed in resets to, and so does the option
    state (same [spot], [expiry], [payoff], [times]). *)
Theorem mc_keeps_attributes (n_paths : Z) (w : @Pricer.world RNG) :
  Process.reset
    (Pricer.process
       (snd (Pricer.mc_path_dependent normal PC OC discount n_paths w)))
  = Process.reset (Pricer.process w)
  /\ OptionState.reset
       (Pricer.option_state
          (snd (Pricer.mc_path_dependent normal PC OC discount n_paths w)))
     = OptionState.reset (Pricer.option_state w).
Proof.
  unfold Pricer.mc_path_dependent, Pricer.bind.
  pose proof (for_paths_frame (OptionState.times (Pricer.option_state w))
                (Z.to_nat n_paths) 0 w) as H.
  destruct (Pricer.for_paths normal PC OC _ _ _ _) as [ [ s | e ] w' ];
    simpl in H; [ | exact H ].
  destruct (n_paths =? 0)%Z; exact H.
Qed.

(** X13.  A call that returns a value has drawn exactly
    [n_paths * len(times)] normal samples (none when [n_paths] is
    negative). *)
Theorem mc_draw_count (n_paths : Z) (w : @Pricer.world RNG) (price : Q) :
  fst (Pricer.mc_path_dependent normal PC OC discount n_paths w) = Ok price ->
  Pricer.random
    (snd (Pricer.mc_path_dependent normal PC OC discount n_paths w))
  = Pricer.skip normal
      (Z.to_nat n_paths
       * length (OptionState.times (Pricer.option_state w)))
      (Pricer.random w).
Proof.
  unfold Pricer.mc_path_dependent, Pricer.bind.
  set (times := OptionState.times (Pricer.option_state w)).
  destruct (Z.to_nat n_paths) as [ | n ] eqn:En.
  - rewrite for_paths_zero. destruct (n_paths =? 0)%Z; [ discriminate | ].
    reflexivity.
  - destruct (Pricer.for_paths normal PC OC (S n) times 0 w)
      as [ [ s | e ] w1 ] eqn:Erun; [ | discriminate ].
    destruct (n_paths =? 0)%Z; [ discriminate | ]. intros _. simpl snd.
    destruct (for_paths_end normal PC OC (Pricer.process w)
                (Pricer.option_state w) n 0 w s w1 eq_refl eq_refl Erun)
      as [ Hf _ ].
    destruct (spec_fixings_frame normal PC OC _ _ _ _ _ _ _ Hf)
      as [ _ [ _ [ Hr _ ] ] ].
    rewrite Hr. fold times. rewrite <- skip_add. f_equal. simpl. lia.
Qed.

(** X14.  The price does not depend on what an earlier use left in the
    arguments: two calls whose processes reset to the same state and whose
    option states reset to the same state, started from the same generator
    state, return the same value or raise the same exception. *)
Theorem mc_ignores_leftover_state (n_paths : Z) (p1 p2 : Process.t)
    (o1 o2 : OptionState.t) (r : RNG) :
  Process.reset p1 = Process.reset p2 ->
  OptionState.reset o1 = OptionState.reset o2 ->
  fst (Pricer.mc_path_dependent normal PC OC discount n_paths
         (Pricer.World p1 o1 r))
  = fst (Pricer.mc_path_dependent normal PC OC discount n_paths
           (Pricer.World p2 o2 r)).
Proof.
  intros Hp Ho.
  destruct (reset_attributes _ _ Ho) as [ Et Ee ].
  unfold Pricer.mc_path_dependent, Pricer.bind. simpl. rewrite Et.
  pose proof (for_paths_run normal PC OC p2 o2 (Z.to_nat n_paths) 0
                (Pricer.World p1 o1 r) Hp Ho) as H1.
  pose proof (for_paths_run normal PC OC p2 o2 (Z.to_nat n_paths) 0
                (Pricer.World p2 o2 r) eq_refl eq_refl) as H2.
  simpl in H1, H2.
  destruct (Pricer.spec_payoffs normal PC OC _ p2 o2 r) as [ vs | e ].
  - destruct H1 as [ w1 [ -> [ _ R1 ] ] ].
    destruct H2 as [ w2 [ -> [ _ R2 ] ] ].
    destruct (n_paths =? 0)%Z; [ reflexivity | ]. simpl.
    rewrite (proj2 (reset_attributes _ _ R1)).
    now rewrite (proj2 (reset_attributes _ _ R2)).
  - destruct (Pricer.for_paths normal PC OC _ _ _ (Pricer.World p1 o1 r))
      as [ [ s1 | e1 ] w1 ]; simpl in H1; [ discriminate | ].
    destruct (Pricer.for_paths normal PC OC _ _ _ (Pricer.World p2 o2 r))
      as [ [ s2 | e2 ] w2 ]; simpl in H2; [ discriminate | ].
    simpl. congruence.
Qed.

(** X15.  With no required time at all, a call with at least one path
    raises the [RuntimeError] of [calculate_payoff] on its first path: no
    sample is drawn, and both arguments are left reset. *)
Theorem mc_empty_times (n_paths : Z) (w : @Pricer.world RNG) :
  (1 <= n_paths)%Z ->
  OptionState.times (Pricer.option_state w) = [] ->
  Pricer.mc_path_dependent normal PC OC discount n_paths w
  = (Raise RuntimeError,
     Pricer.World (Process.reset (Pricer.process w))
                  (OptionState.reset (Pricer.option_state w))
                  (Pricer.random w)).
Proof.
  intros Hn Et. unfold Pricer.mc_path_dependent, Pricer.bind. rewrite Et.
  destruct (Z.to_nat n_paths) as [ | n ] eqn:En; [ lia | ].
  rewrite for_paths_succ. reflexivity.
Qed.

(** The option state at the end of the fixings of a path is a reachable
    one. *)
Lemma spec_fixings_reachable (spot expiry : Q)
    (payoff : option Q -> result Q) (required : list Q) (times : list Q) :
  forall p o r p' o' r',
    Pricer.spec_fixings normal PC OC times p o r = Ok (p', o', r') ->
    reachable OC spot expiry payoff required o ->
    reachable OC spot expiry payoff required o'.
Proof.
  induction times as [ | t rest IH ]; intros p o r p' o' r' H R; simpl in H.
  - now inversion H; subst.
  - destruct (normal r) as [ z r1 ].
    destruct (Process.update PC p t z) as [ p1 [ v | e ] ];
      [ | discriminate ].
    destruct (OptionState.update OC o t v) as [ o1 [ [] | e ] ] eqn:Eo;
      [ | discriminate ].
    apply (IH _ _ _ _ _ _ H).
    change o1 with (fst (o1, @Ok unit tt)). rewrite <- Eo.
    now apply reach_update.
Qed.

(** X16.  When every required time is before [expiry], no call with at
    least one path returns a value: the first path ends unexpired and
    [calculate_payoff] raises (unless something raised earlier). *)
Theorem mc_never_expiring (n_paths : Z) (w : @Pricer.world RNG) (price : Q) :
  (1 <= n_paths)%Z ->
  (forall t, In t (OptionState.times (Pricer.option_state w)) ->
             t < OptionState.expiry (Pricer.option_state w)) ->
  fst (Pricer.mc_path_dependent normal PC OC discount n_paths w) <> Ok price.
Proof.
  intros Hn Hbefore Hok.
  unfold Pricer.mc_path_dependent, Pricer.bind in Hok.
  set (o := Pricer.option_state w) in *.
  destruct (Z.to_nat n_paths) as [ | n ] eqn:En; [ lia | ].
  destruct (Pricer.for_paths normal PC OC (S n) (OptionState.times o) 0 w)
    as [ [ s | e ] w1 ] eqn:Erun; [ | discriminate ].
  destruct (for_paths_end normal PC OC (Pricer.process w) o n 0 w s w1
              eq_refl eq_refl Erun) as [ Hf He ].
  assert (R : reachable OC (OptionState.spot o) (OptionState.expiry o)
                (OptionState.payoff o) (OptionState.times o)
                (Pricer.option_state w1)).
  { apply (spec_fixings_reachable _ _ _ _ _ _ _ _ _ _ _ Hf).
    apply reach_init. }
  destruct (reachable_record _ _ _ _ _ _ R) as [ _ [ M _ ] ].
  destruct (reset_attributes _ _
              (reachable_reset _ _ _ _ _ _ R)) as [ _ Ee ].
  simpl in Ee.
  apply has_expired_iff in He as [ u [ Hu Hle ] ].
  rewrite Ee in Hle.
  rewrite forallb_forall in M. specialize (M u Hu).
  apply py_in_iff in M as [ t [ Ht Eq ] ].
  specialize (Hbefore t Ht). rewrite Eq in Hbefore.
  apply (Qlt_irrefl u). now apply Qlt_le_trans with (OptionState.expiry o).
Qed.

(** X17.  With a process of the abstract class [Process], a call with at
    least one path and at least one required time raises the
    [NotImplementedError] of [evolve] at the first fixing: one sample has
    been drawn, and both arguments are left reset. *)
Theorem mc_abstract_process (n_paths : Z) (w : @Pricer.world RNG) :
  (1 <= n_paths)%Z ->
  OptionState.times (Pricer.option_state w) <> [] ->
  Pricer.mc_path_dependent normal Process.base OC discount n_paths w
  = (Raise NotImplementedError,
     Pricer.World (Process.reset (Pricer.process w))
                  (OptionState.reset (Pricer.option_state w))
                  (snd (normal (Pricer.random w)))).
Proof.
  intros Hn Ht. unfold Pricer.mc_path_dependent, Pricer.bind.
  destruct (OptionState.times (Pricer.option_state w)) as [ | t rest ];
    [ congruence | ].
  destruct (Z.to_nat n_paths) as [ | n ] eqn:En; [ lia | ].
  rewrite for_paths_succ.
  unfold Pricer.do_one_path. simpl Pricer.for_times.
  unfold Pricer.bind, Pricer.draw, Pricer.process_update. simpl.
  now destruct (normal (Pricer.random w)).
Qed.

End DriverFurther.

Lemma mc_draw_count_witness :
  fst (Pricer.mc_path_dependent Examples.cycle Examples.bs_class
         (UpAndOut 200) Examples.yield_curve_discount 2 Examples.world0)
  = Ok (90518100 # 2500000000)
  /\ Pricer.random
       (snd (Pricer.mc_path_dependent Examples.cycle Examples.bs_class
               (UpAndOut 200) Examples.yield_curve_discount 2
               Examples.world0))
     = 10%nat.
Proof.
  assert (Hok : fst (Pricer.mc_path_dependent Examples.cycle
                       Examples.bs_class (UpAndOut 200)
                       Examples.yield_curve_discount 2 Examples.world0)
                = Ok (90518100 # 2500000000)).
  { vm_compute. reflexivity. }
  split; [ exact Hok | ].
  rewrite (mc_draw_count Examples.cycle Examples.bs_class (UpAndOut 200)
             Examples.yield_curve_discount 2 Examples.world0 _ Hok).
  reflexivity.
Defined.

Lemma mc_ignores_leftover_state_witness :
  fst (Pricer.mc_path_dependent Examples.cycle Examples.bs_class
         (UpAndOut 200) Examples.yield_curve_discount 2
         (Pricer.World Examples.rand_process Examples.call_state 0%nat))
  = fst (Pricer.mc_path_dependent Examples.cycle Examples.bs_class
           (UpAndOut 200) Examples.yield_curve_discount 2
           (Pricer.World (Process.make 100 (Process.StateData.make 130 5))
                         Examples.knocked 0%nat)).
Proof.
  apply mc_ignores_leftover_state; reflexivity.
Defined.

Lemma mc_empty_times_witness :
  (1 <= 3)%Z
  /\ fst (Pricer.mc_path_dependent Examples.cycle Examples.bs_class
            (UpAndOut 120) Examples.yield_curve_discount 3
            (Pricer.World Examples.rand_process
               (OptionState.init 100 5 (Call 100) [] None) 7%nat))
     = Raise RuntimeError.
Proof.
  assert (H : (1 <= 3)%Z) by lia.
  split; [ exact H | ].
  rewrite (mc_empty_times Examples.cycle Examples.bs_class (UpAndOut 120)
             Examples.yield_curve_discount 3
             (Pricer.World Examples.rand_process
                (OptionState.init 100 5 (Call 100) [] None) 7%nat)
             H eq_refl).
  reflexivity.
Defined.

Lemma mc_never_expiring_witness :
  (1 <= 2)%Z
  /\ fst (Pricer.mc_path_dependent Examples.cycle Examples.bs_class
            (UpAndOut 200) Examples.yield_curve_discount 2
            (Pricer.World Examples.rand_process
               (OptionState.init 100 5 (Call 100) [1; 2; 3] None) 0%nat))
     <> Ok 0.
Proof.
  assert (H : (1 <= 2)%Z) by lia.
  split; [ exact H | ].
  apply mc_never_expiring; [ exact H | ].
  intros t Ht. simpl in Ht.
  decompose [or] Ht; subst; reflexivity || contradiction.
Defined.

Lemma mc_abstract_process_witness :
  (1 <= 2)%Z
  /\ Pricer.mc_path_dependent Examples.cycle Process.base (UpAndOut 120)
       Examples.yield_curve_discount 2 Examples.world0
     = (Raise NotImplementedError,
        Pricer.World Examples.rand_process Examples.call_state 1%nat).
Proof.
  assert (H : (1 <= 2)%Z) by lia.
  split; [ exact H | ].
  rewrite (mc_abstract_process Examples.cycle (UpAndOut 120)
             Examples.yield_curve_discount 2 Examples.world0 H).
  - reflexivity.
  - discriminate.
Defined.

(** ** The state variables side by side *)

Lemma py_last_in (l : list Q) (x : Q) : py_last l = Ok x -> In x l.
Proof.
  induction l as [ | y l IH ]; [ discriminate | ].
  destruct l as [ | z l ].
  - intros H. injection H as <-. now left.
  - intros H. right. now apply IH.
Qed.

Lemma py_sum_bounds (lo hi : Q) (l : list Q) :
  (forall x, In x l -> lo <= x /\ x <= hi) ->
  forall acc,
    acc + inject_Z (Z.of_nat (length l)) * lo <= fold_left Qplus l acc
    /\ fold_left Qplus l acc <= acc + inject_Z (Z.of_nat (length l)) * hi.
Proof.
  induction l as [ | y l IH ]; intros Hb acc.
  - simpl. split; ring_simplify; apply Qle_refl.
  - destruct (Hb y (or_introl eq_refl)) as [ Hlo Hhi ].
    destruct (IH (fun x Hx => Hb x (or_intror Hx)) (acc + y)) as [ I1 I2 ].
    simpl fold_left.
    assert (E : inject_Z (Z.of_nat (length (y :: l)))
                == inject_Z (Z.of_nat (length l)) + 1).
    { simpl length. rewrite Nat2Z.inj_succ. unfold Z.succ.
      now rewrite inject_Z_plus. }
    rewrite E. split.
    + eapply Qle_trans; [ | exact I1 ]. lra.
    + eapply Qle_trans; [ exact I2 | ]. lra.
Qed.

Lemma mean_value (l : list Q) :
  l <> [] -> mean l = Ok (py_sum l / inject_Z (Z.of_nat (length l))).
Proof. destruct l; [ congruence | reflexivity ]. Qed.

Lemma mean_bounds (lo hi : Q) (l : list Q) (a : Q) :
  (forall x, In x l -> lo <= x /\ x <= hi) ->
  mean l = Ok a -> lo <= a /\ a <= hi.
Proof.
  intros Hb H.
  assert (Hne : l <> []) by (intros ->; discriminate).
  rewrite (mean_value l Hne) in H. injection H as <-.
  assert (Hn : 0 < inject_Z (Z.of_nat (length l))).
  { change 0 with (inject_Z 0). rewrite <- Zlt_Qlt.
    destruct l; [ congruence | simpl length; lia ]. }
  destruct (py_sum_bounds lo hi l Hb 0) as [ S1 S2 ].
  fold (py_sum l) in S1, S2.
  split.
  - apply Qle_shift_div_l; [ exact Hn | ].
    eapply Qle_trans; [ | exact S1 ]. lra.
  - apply Qle_shift_div_r; [ exact Hn | ].
    eapply Qle_trans; [ exact S2 | ]. lra.
Qed.

Lemma Call_monotone (strike s s' v v' : Q) :
  s <= s' -> Call strike (Some s) = Ok v -> Call strike (Some s') = Ok v' ->
  v <= v'.
Proof.
  unfold Call, np_maximum. intros Hle H H'.
  injection H as <-. injection H' as <-.
  destruct (py_lt (s - strike) 0) eqn:E, (py_lt (s' - strike) 0) eqn:E';
    try apply py_lt_iff in E; try apply py_lt_iff in E';
    try apply py_lt_false_iff in E; try apply py_lt_false_iff in E'; lra.
Qed.

(** X18.  On one non-empty record, the state variable of [AsianState] (the
    mean) lies between the least and the greatest observed value, and the
    state variable of the barrier states (the last value) is at most that
    of [MaxState] (the greatest value); so a call on the lookback state
    variable pays at least what it pays on the Asian and on the barrier
    one. *)
Theorem lookback_dominates (strike barrier : Q) (o : OptionState.t) :
  observed o <> [] ->
  exists lo a x m,
    py_min (observed o) = Ok lo
    /\ OptionState.calculate_state_variable AsianState o = Ok a
    /\ OptionState.calculate_state_variable (BarrierState barrier) o = Ok x
    /\ OptionState.calculate_state_variable MaxState o = Ok m
    /\ lo <= a /\ a <= m /\ x <= m
    /\ exists pa px pm,
        Call strike (Some a) = Ok pa /\ Call strike (Some x) = Ok px
        /\ Call strike (Some m) = Ok pm /\ pa <= pm /\ px <= pm.
Proof.
  intros Hne.
  destruct (py_max_is_max _ Hne) as [ m [ Em [ _ Hm ] ] ].
  destruct (py_min_is_min _ Hne) as [ lo [ Elo [ _ Hlo ] ] ].
  destruct (py_last_defined _ Hne) as [ x Ex ].
  assert (Ha : exists a, mean (observed o) = Ok a).
  { unfold mean. destruct (observed o); [ congruence | eexists; reflexivity ]. }
  destruct Ha as [ a Ea ].
  destruct (mean_bounds lo m (observed o) a) as [ B1 B2 ];
    [ intros y Hy; split; [ now apply Hlo | now apply Hm ] | exact Ea | ].
  assert (Hx : x <= m) by (apply Hm; now apply py_last_in).
  exists lo, a, x, m. simpl.
  unfold BarrierState_calculate_state_variable.
  repeat (split; [ assumption | ]).
  exists (np_maximum (a - strike) 0), (np_maximum (x - strike) 0),
    (np_maximum (m - strike) 0).
  repeat (split; [ reflexivity | ]).
  split; eapply Call_monotone; try reflexivity; assumption.
Qed.

Lemma lookback_dominates_witness :
  exists lo a x m,
    py_min Examples.fixings = Ok lo /\ mean Examples.fixings = Ok a
    /\ py_last Examples.fixings = Ok x /\ py_max Examples.fixings = Ok m
    /\ lo <= a /\ a <= m /\ x <= m.
Proof.
  destruct (lookback_dominates 100 120
              (Examples.feed MaxState Examples.call_state
                             Examples.times Examples.fixings))
    as [ lo [ a [ x [ m [ H1 [ H2 [ H3 [ H4 [ H5 [ H6 [ H7 _ ] ] ] ] ] ] ]
         ] ] ] ].
  - discriminate.
  - exists lo, a, x, m. repeat (split; [ assumption | ]). assumption.
Defined.

(** ** The abstract option classes in the driver *)

Section AbstractOptionClasses.

Context {RNG : Type} (normal : RNG -> Q * RNG).
Context (PC : Process.class) (discount : Q -> Q).

(** As long as nothing raises, a state of the base class stays
    unexpired. *)
Lemma base_update_stays_open (o o' : OptionState.t) (t v : Q) :
  OptionState.update OptionState.base o t v = (o', Ok tt) ->
  OptionState.has_expired o = false ->
  OptionState.has_expired o' = false.
Proof.
  unfold OptionState.update.
  destruct (_ && _); [ | intros E; now inversion E ].
  unfold OptionState.update_state.
  match goal with
  | |- context [ OptionState.has_expired ?s ] =>
      destruct (OptionState.has_expired s) eqn:He
  end; simpl; intros E; [ discriminate | ].
  inversion E; subst. intros _. exact He.
Qed.

Lemma base_fixings_stay_open (times : list Q) :
  forall p o r p' o' r',
    Pricer.spec_fixings normal PC OptionState.base times p o r
    = Ok (p', o', r') ->
    OptionState.has_expired o = false ->
    OptionState.has_expired o' = false.
Proof.
  induction times as [ | t rest IH ]; intros p o r p' o' r' H He;
    simpl in H.
  - now inversion H; subst.
  - destruct (normal r) as [ z r1 ].
    destruct (Process.update PC p t z) as [ p1 [ v | e ] ];
      [ | discriminate ].
    destruct (OptionState.update OptionState.base o t v)
      as [ o1 [ [] | e ] ] eqn:Eo; [ | discriminate ].
    apply (IH _ _ _ _ _ _ H).
    exact (base_update_stays_open _ _ _ _ Eo He).
Qed.

(** The first path decides when its payoff cannot be computed. *)
Lemma first_path_raises (OC : OptionState.class) (n : nat)
    (w : @Pricer.world RNG) (price : Q) :
  (forall p o r,
     Pricer.spec_fixings normal PC OC
       (OptionState.times (Pricer.option_state w))
       (Process.reset (Pricer.process w))
       (OptionState.reset (Pricer.option_state w)) (Pricer.random w)
     = Ok (p, o, r) ->
     forall v, OptionState.calculate_payoff OC o <> Ok v) ->
  fst (Pricer.for_paths normal PC OC (S n)
         (OptionState.times (Pricer.option_state w)) 0 w) <> Ok price.
Proof.
  intros Hraise. rewrite for_paths_succ.
  match goal with
  | |- context [ Pricer.do_one_path normal PC OC ?ts ?w1 ] =>
      pose proof (do_one_path_run normal PC OC ts w1) as H1
  end.
  simpl in H1.
  destruct (Pricer.spec_fixings normal PC OC _ _ _ _)
    as [ [ [ p o ] r ] | e ] eqn:Ef.
  - rewrite H1. specialize (Hraise p o r eq_refl).
    destruct (OptionState.calculate_payoff OC o) as [ v | e ];
      [ now destruct (Hraise v) | discriminate ].
  - destruct (Pricer.do_one_path normal PC OC _ _) as [ [ v | e' ] w' ];
      simpl in H1; discriminate.
Qed.

(** X19.  The abstract option classes cannot be priced: with an option
    state of the base class [OptionState] (abstract
    [calculate_state_variable]) or of [BarrierState] (abstract
    [is_payoff_active]), no call with at least one path returns a value. *)
Theorem mc_abstract_option_state (barrier : Q) (n_paths : Z)
    (w : @Pricer.world RNG) (price : Q) :
  (1 <= n_paths)%Z ->
  fst (Pricer.mc_path_dependent normal PC OptionState.base discount
         n_paths w) <> Ok price
  /\ fst (Pricer.mc_path_dependent normal PC (BarrierState barrier) discount
            n_paths w) <> Ok price.
Proof.
  intros Hn. unfold Pricer.mc_path_dependent, Pricer.bind.
  destruct (Z.to_nat n_paths) as [ | n ] eqn:En; [ lia | ].
  split.
  - pose proof (first_path_raises OptionState.base n w) as H.
    destruct (Pricer.for_paths normal PC OptionState.base (S n) _ 0 w)
      as [ [ s | e ] w' ]; [ | discriminate ].
    exfalso. apply (H s); [ | reflexivity ].
    intros p o r Hf v.
    unfold OptionState.calculate_payoff.
    now rewrite (base_fixings_stay_open _ _ _ _ _ _ _ Hf eq_refl).
  - pose proof (first_path_raises (BarrierState barrier) n w) as H.
    destruct (Pricer.for_paths normal PC (BarrierState barrier) (S n) _ 0 w)
      as [ [ s | e ] w' ]; [ | discriminate ].
    exfalso. apply (H s); [ | reflexivity ].
    intros p o r _ v. unfold OptionState.calculate_payoff. simpl.
    now destruct (OptionState.has_expired o).
Qed.

End AbstractOptionClasses.

Lemma mc_abstract_option_state_witness :
  (1 <= 2)%Z
  /\ fst (Pricer.mc_path_dependent Examples.cycle Examples.bs_class
            OptionState.base Examples.yield_curve_discount 2 Examples.world0)
     <> Ok 0
  /\ fst (Pricer.mc_path_dependent Examples.cycle Examples.bs_class
            (BarrierState 120) Examples.yield_curve_discount 2
            Examples.world0)
     <> Ok 0.
Proof.
  assert (H : (1 <= 2)%Z) by lia.
  split; [ exact H | ].
  exact (mc_abstract_option_state Examples.cycle Examples.bs_class
           Examples.yield_curve_discount 120 2 Examples.world0 0 H).
Defined.

(** ** The draft of the lecture notebook *)

(** X20.  The draft [BlackScholesProcess] is not incremental: the value
    [update(t, z)] returns is the same whether or not other updates came
    before it, [updated_time] keeps the value it had through any sequence of
    updates, and [reset()] after them gives what [reset()] gave before. *)
Theorem draft_is_not_incremental (np_exp np_sqrt : Q -> Q)
    (p : BlackScholesProcess_draft) (steps : list (Q * Q)) (t z : Q) :
  snd (draft_update np_exp np_sqrt (draft_run np_exp np_sqrt p steps) t z)
  = snd (draft_update np_exp np_sqrt p t z)
  /\ updated_time (draft_run np_exp np_sqrt p steps) = updated_time p
  /\ draft_reset (draft_run np_exp np_sqrt p steps) = draft_reset p.
Proof.
  revert p. induction steps as [ | [ t' z' ] rest IH ]; intros p.
  - now repeat split.
  - destruct (IH (fst (draft_update np_exp np_sqrt p t' z')))
      as [ H1 [ H2 H3 ] ].
    change (draft_run np_exp np_sqrt p ((t', z') :: rest))
      with (draft_run np_exp np_sqrt
              (fst (draft_update np_exp np_sqrt p t' z')) rest).
    rewrite H1, H2, H3. now repeat split.
Qed.
